(** * Priority task manager (tarefa_prioridade.py)

    A shallow embedding of the three classes of the module:
    [Tarefa], [FilaTarefas] and [GerenciadorTarefas], and the proofs of
    the properties its specification states about them.

    Python objects are mutated in place and methods may print and raise.
    Every method is therefore a computation in a small monad that threads
    the receiver's state, collects the printed lines and propagates
    exceptions ([KeyError] of a dict subscript, [IndexError] of
    [list.pop]). *)

From stdpp Require Import gmap strings list sorting pretty.

Open Scope string_scope.
Open Scope list_scope.
Open Scope Z_scope.

(** ** The effect monad *)

Inductive excecao :=
  | KeyError (k : Z)
  | IndexError.

Inductive resultado (A : Type) :=
  | Retorno (a : A)
  | Levanta (e : excecao).
Arguments Retorno {A} a.
Arguments Levanta {A} e.

(** A method with receiver state [S]: result, receiver after the call,
    lines printed by the call. *)
Definition M (S A : Type) : Type := S → resultado A * S * list string.

Definition ret {S A} (a : A) : M S A := λ s, (Retorno a, s, []).

Definition bind {S A B} (c : M S A) (f : A → M S B) : M S B :=
  λ s, match c s with
       | (Retorno a, s', o) =>
           match f a s' with (r, s'', o') => (r, s'', o ++ o') end
       | (Levanta e, s', o) => (Levanta e, s', o)
       end.

Definition levantar {S A} (e : excecao) : M S A := λ s, (Levanta e, s, []).
Definition print {S} (linha : string) : M S unit := λ s, (Retorno tt, s, [linha]).
Definition ler {S} : M S S := λ s, (Retorno s, s, []).
Definition escrever {S} (s' : S) : M S unit := λ _, (Retorno tt, s', []).

Notation "'let*' x ':=' c 'in' k" := (bind c (λ x, k))
  (at level 10, x pattern, c at level 100, k at level 200,
   format "'[v' 'let*'  x  :=  c  'in'  '/' k ']'").

(** ** class Tarefa *)

Record Tarefa := MkTarefa {
  nome : string;
  descricao : string;
  prioridade : Z
}.

Definition nova_linha : string := String (Ascii.ascii_of_nat 10) EmptyString.

(** [{1: "Alta", 2: "Média", 3: "Baixa"}.get(p, "Desconhecida")] *)
Definition prioridade_texto (p : Z) : string :=
  if decide (p = 1) then "Alta"
  else if decide (p = 2) then "Média"
  else if decide (p = 3) then "Baixa"
  else "Desconhecida".

(** [Tarefa.__str__] *)
Definition Tarefa_str (t : Tarefa) : string :=
  "Tarefa: " +:+ nome t +:+ " (Prioridade: " +:+ prioridade_texto (prioridade t)
  +:+ ")" +:+ nova_linha +:+ "Descrição: " +:+ descricao t.

(** ** Python [str] values

    A [str] is represented by its UTF-8 encoding, as the literals of this
    file are.  Python's [len] and slices count code points; in UTF-8 the
    code points are the bytes that are not continuation bytes (those of
    the form 10xxxxxx), each followed by its continuation bytes.  (A
    [str] holding an unpaired surrogate has no UTF-8 encoding and is
    outside the model.) *)

Definition byte_de_continuacao (c : Ascii.ascii) : bool :=
  match c with
  | Ascii.Ascii _ _ _ _ _ _ b6 b7 => b7 && negb b6
  end.

(** [len(s)] *)
Fixpoint len_str (s : string) : nat :=
  match s with
  | EmptyString => 0%nat
  | String c s' =>
      if byte_de_continuacao c then len_str s' else S (len_str s')
  end.

(** [s[:n]]: the first [n] code points of [s], each with its
    continuation bytes. *)
Fixpoint prefixo_str (n : nat) (s : string) : string :=
  match s with
  | EmptyString => EmptyString
  | String c s' =>
      if byte_de_continuacao c then String c (prefixo_str n s')
      else match n with
           | O => EmptyString
           | S n' => String c (prefixo_str n' s')
           end
  end.

(** ** class FilaTarefas *)

Record FilaTarefas := MkFila { tarefas : list Tarefa }.

Module Fila.

(** [__init__] *)
Definition nova : FilaTarefas := MkFila [].

(** [self.tarefas.append(tarefa)] *)
Definition adicionar (t : Tarefa) : M FilaTarefas unit :=
  let* f := ler in
  escrever (MkFila (tarefas f ++ [t])).

(** [len(self.tarefas) == 0] *)
Definition esta_vazia : M FilaTarefas bool :=
  let* f := ler in
  ret (bool_decide (length (tarefas f) = 0%nat)).

(** [self.tarefas.pop(0)]: raises [IndexError] on an empty list. *)
Definition pop0 : M FilaTarefas Tarefa :=
  let* f := ler in
  match tarefas f with
  | [] => levantar IndexError
  | t :: resto => let* _ := escrever (MkFila resto) in ret t
  end.

Definition remover : M FilaTarefas (option Tarefa) :=
  let* vazia := esta_vazia in
  if negb vazia then let* t := pop0 in ret (Some t)
  else ret None.

(** [self.tarefas[0]]: raises [IndexError] on an empty list. *)
Definition item0 : M FilaTarefas Tarefa :=
  let* f := ler in
  match tarefas f with
  | [] => levantar IndexError
  | t :: _ => ret t
  end.

Definition frente : M FilaTarefas (option Tarefa) :=
  let* vazia := esta_vazia in
  if negb vazia then let* t := item0 in ret (Some t)
  else ret None.

Definition tamanho : M FilaTarefas nat :=
  let* f := ler in
  ret (length (tarefas f)).

(** The attribute [fila.tarefas], read from outside the class by the
    listing. *)
Definition ler_tarefas : M FilaTarefas (list Tarefa) :=
  let* f := ler in
  ret (tarefas f).

End Fila.

(** ** class GerenciadorTarefas *)

Record GerenciadorTarefas := MkGerenciador {
  filas_prioridades : gmap Z FilaTarefas
}.

Record Estatisticas := MkEstatisticas {
  total : nat;
  por_prioridade : gmap Z nat
}.

(** [sorted(self.filas_prioridades.keys())] *)
Definition chaves_ordenadas (g : GerenciadorTarefas) : list Z :=
  merge_sort Z.le (elements (dom (filas_prioridades g))).

(** A call [self.filas_prioridades[k].metodo(...)]: the subscript raises
    [KeyError] when [k] is not a key; otherwise the method runs on the
    queue object stored under [k], which it may mutate in place.  No two
    keys share a queue object, so the dict holds the queues by value. *)
Definition na_fila {A} (k : Z) (metodo : M FilaTarefas A) : M GerenciadorTarefas A :=
  λ g, match filas_prioridades g !! k with
       | None => (Levanta (KeyError k), g, [])
       | Some f =>
           match metodo f with
           | (r, f', o) => (r, MkGerenciador (<[k := f']> (filas_prioridades g)), o)
           end
       end.

Module Gerenciador.

(** [__init__] *)
Definition novo : GerenciadorTarefas :=
  MkGerenciador (<[1 := Fila.nova]> (<[2 := Fila.nova]> (<[3 := Fila.nova]> ∅))).

Definition adicionar_tarefa (t : Tarefa) : M GerenciadorTarefas bool :=
  let* g := ler in
  if bool_decide (prioridade t ∉ dom (filas_prioridades g)) then
    let* _ := print ("Erro: Prioridade inválida (" +:+ pretty (prioridade t) +:+ ")") in
    ret false
  else
    let* _ := na_fila (prioridade t) (Fila.adicionar t) in
    let* _ := print ("Tarefa '" +:+ nome t +:+ "' adicionada com prioridade "
                     +:+ pretty (prioridade t)) in
    ret true.

(** The [for prioridade in sorted(...)] loop of [proxima_tarefa], over
    the keys still to visit.  The source binds
    [fila = self.filas_prioridades[prioridade]] once and calls two methods
    on that object; here each of the two calls goes through [na_fila k],
    which reaches the same object. *)
Fixpoint proxima_tarefa_laco (ks : list Z) : M GerenciadorTarefas (option Tarefa) :=
  match ks with
  | [] => let* _ := print "Não há tarefas pendentes" in ret None
  | k :: ks' =>
      let* vazia := na_fila k Fila.esta_vazia in
      if negb vazia then na_fila k Fila.remover
      else proxima_tarefa_laco ks'
  end.

Definition proxima_tarefa : M GerenciadorTarefas (option Tarefa) :=
  let* g := ler in
  proxima_tarefa_laco (chaves_ordenadas g).

(** The same loop in [visualizar_proxima_tarefa], with [frente] in place
    of [remover]. *)
Fixpoint visualizar_proxima_tarefa_laco (ks : list Z)
  : M GerenciadorTarefas (option Tarefa) :=
  match ks with
  | [] => let* _ := print "Não há tarefas pendentes" in ret None
  | k :: ks' =>
      let* vazia := na_fila k Fila.esta_vazia in
      if negb vazia then na_fila k Fila.frente
      else visualizar_proxima_tarefa_laco ks'
  end.

Definition visualizar_proxima_tarefa : M GerenciadorTarefas (option Tarefa) :=
  let* g := ler in
  visualizar_proxima_tarefa_laco (chaves_ordenadas g).

(** [fila.tamanho()] for each queue of the dict, in the order [ks]. *)
Fixpoint tamanhos (ks : list Z) : M GerenciadorTarefas (list nat) :=
  match ks with
  | [] => ret []
  | k :: ks' =>
      let* n := na_fila k Fila.tamanho in
      let* ns := tamanhos ks' in
      ret (n :: ns)
  end.

(** The dict is traversed twice, once for the sum and once for the
    comprehension; the result does not depend on the traversal order,
    taken here to be that of [map_to_list]. *)
Definition estatisticas : M GerenciadorTarefas Estatisticas :=
  let* g := ler in
  let ks := (map_to_list (filas_prioridades g)).*1 in
  let* ns := tamanhos ks in
  let total_tarefas := sum_list ns in
  let* ns' := tamanhos ks in
  ret (MkEstatisticas total_tarefas (list_to_map (zip ks ns'))).

(** [{1: "ALTA", 2: "MÉDIA", 3: "BAIXA"}.get(p, "DESCONHECIDA")] *)
Definition prioridade_texto_listagem (p : Z) : string :=
  if decide (p = 1) then "ALTA"
  else if decide (p = 2) then "MÉDIA"
  else if decide (p = 3) then "BAIXA"
  else "DESCONHECIDA".

(** [descricao[:50]] followed by ['...' if len(descricao) > 50 else ''],
    both counted in code points. *)
Definition previa_descricao (d : string) : string :=
  prefixo_str 50 d
  +:+ (if bool_decide (50 < len_str d)%nat then "..." else "").

(** [f"{i+1}. {tarefa.nome} - {previa}"] *)
Definition linha_tarefa (i : nat) (t : Tarefa) : string :=
  pretty (i + 1)%nat +:+ ". " +:+ nome t +:+ " - " +:+ previa_descricao (descricao t).

(** [f"\n--- Prioridade {prioridade_texto} ({num_tarefas} tarefas) ---"] *)
Definition cabecalho_classe (k : Z) (num_tarefas : nat) : string :=
  nova_linha +:+ "--- Prioridade " +:+ prioridade_texto_listagem k +:+ " ("
  +:+ pretty num_tarefas +:+ " tarefas) ---".

(** [for i, tarefa in enumerate(fila.tarefas): print(...)], from index [i]. *)
Fixpoint listar_fila (i : nat) (ts : list Tarefa) : M GerenciadorTarefas unit :=
  match ts with
  | [] => ret tt
  | t :: ts' =>
      let* _ := print (linha_tarefa i t) in
      listar_fila (S i) ts'
  end.

(** The [for prioridade in sorted(...)] loop of [listar_todas_tarefas];
    [total_tarefas] is the running sum, returned when the loop ends. *)
Fixpoint listar_laco (ks : list Z) (total_tarefas : nat) : M GerenciadorTarefas nat :=
  match ks with
  | [] => ret total_tarefas
  | k :: ks' =>
      let* num_tarefas := na_fila k Fila.tamanho in
      let total_tarefas := (total_tarefas + num_tarefas)%nat in
      let* _ := print (cabecalho_classe k num_tarefas) in
      let* vazia := na_fila k Fila.esta_vazia in
      if vazia then
        let* _ := print "Nenhuma tarefa nesta categoria" in
        listar_laco ks' total_tarefas
      else
        let* ts := na_fila k Fila.ler_tarefas in
        let* _ := listar_fila 0 ts in
        listar_laco ks' total_tarefas
  end.

Definition listar_todas_tarefas : M GerenciadorTarefas unit :=
  let* _ := print (nova_linha +:+ "===== LISTA DE TAREFAS =====") in
  let* g := ler in
  let* total_tarefas := listar_laco (chaves_ordenadas g) 0 in
  let* _ := print (nova_linha +:+ "Total: " +:+ pretty total_tarefas +:+ " tarefas") in
  print "============================".

End Gerenciador.

(** ** A driver: a sequence of calls on one manager *)

Inductive operacao :=
  | Submeter (t : Tarefa)
  | Proxima.

Inductive evento :=
  | Submetida (t : Tarefa) (ok : bool)
  | Retirada (r : option Tarefa).

(** Runs the calls in order on the same manager and records what each one
    returned; an exception would end the run. *)
Fixpoint executar (ops : list operacao) : M GerenciadorTarefas (list evento) :=
  match ops with
  | [] => ret []
  | Submeter t :: ops' =>
      let* ok := Gerenciador.adicionar_tarefa t in
      let* evs := executar ops' in
      ret (Submetida t ok :: evs)
  | Proxima :: ops' =>
      let* r := Gerenciador.proxima_tarefa in
      let* evs := executar ops' in
      ret (Retirada r :: evs)
  end.

(** Tasks whose submission succeeded, in submission order. *)
Fixpoint submetidas (evs : list evento) : list Tarefa :=
  match evs with
  | [] => []
  | Submetida t true :: evs' => t :: submetidas evs'
  | _ :: evs' => submetidas evs'
  end.

(** Tasks returned by [proxima_tarefa], in the order of the calls. *)
Fixpoint retiradas (evs : list evento) : list Tarefa :=
  match evs with
  | [] => []
  | Retirada (Some t) :: evs' => t :: retiradas evs'
  | _ :: evs' => retiradas evs'
  end.

Definition da_classe (k : Z) (ts : list Tarefa) : list Tarefa :=
  filter (λ t, prioridade t = k) ts.

(** ** Observations on a manager state *)

(** The queue stored under [k] becomes [ts]. *)
Definition com_fila (g : GerenciadorTarefas) (k : Z) (ts : list Tarefa)
  : GerenciadorTarefas :=
  MkGerenciador (<[k := MkFila ts]> (filas_prioridades g)).

(** Pending tasks of class [k] ([[]] when [k] is not a class). *)
Definition pendentes_em (g : GerenciadorTarefas) (k : Z) : list Tarefa :=
  match filas_prioridades g !! k with
  | Some f => tarefas f
  | None => []
  end.

(** Number of pending tasks over all classes. *)
Definition pendentes (g : GerenciadorTarefas) : nat :=
  sum_list_with (λ kf, length (tarefas kf.2)) (map_to_list (filas_prioridades g)).

(** Every stored task sits in the queue of its own priority. *)
Definition bem_formado (g : GerenciadorTarefas) : Prop :=
  ∀ k f t, filas_prioridades g !! k = Some f → t ∈ tarefas f → prioridade t = k.

(** Every class below [k] has an empty queue. *)
Definition vazio_abaixo (g : GerenciadorTarefas) (k : Z) : Prop :=
  ∀ j f, filas_prioridades g !! j = Some f → j < k → tarefas f = [].

Definition tudo_vazio (g : GerenciadorTarefas) : Prop :=
  ∀ j f, filas_prioridades g !! j = Some f → tarefas f = [].

Definition sem_pendentes : string := "Não há tarefas pendentes".

Import Gerenciador.

(** Every key of [ks] holds an empty queue. *)
Definition vazias_em (g : GerenciadorTarefas) (ks : list Z) : Prop :=
  ∀ j, j ∈ ks → ∃ f, filas_prioridades g !! j = Some f ∧ tarefas f = [].

(** The lines [adicionar_tarefa] prints. *)
Definition erro_prioridade (t : Tarefa) : string :=
  "Erro: Prioridade inválida (" +:+ pretty (prioridade t) +:+ ")".

Definition confirmacao (t : Tarefa) : string :=
  "Tarefa '" +:+ nome t +:+ "' adicionada com prioridade " +:+ pretty (prioridade t).

(** The label table as the specification words it (English labels), to be
    compared with [prioridade_texto], the table of the source. *)
Definition rotulo_da_especificacao (p : Z) : string :=
  match p with
  | 1 => "High"
  | 2 => "Medium"
  | 3 => "Low"
  | _ => "Unknown"
  end.

(** [sub in s] *)
Fixpoint contem (sub s : string) : bool :=
  String.prefix sub s ||
  match s with
  | EmptyString => false
  | String _ s' => contem sub s'
  end.

(** ** Concrete tasks and a concrete manager for the examples

    The fresh manager after a low-priority task was submitted, then a
    high-priority one. *)

Definition tarefa_baixa : Tarefa := MkTarefa "backup" "copiar os arquivos" 3.
Definition tarefa_alta : Tarefa := MkTarefa "bug" "corrigir o login" 1.

Definition gerenciador_exemplo : GerenciadorTarefas :=
  com_fila (com_fila novo 3 [tarefa_baixa]) 1 [tarefa_alta].

(** A second task of class 1. *)
Definition tarefa_alta_2 : Tarefa := MkTarefa "sql" "otimizar a consulta" 1.

(** A task of a class the manager does not have. *)
Definition tarefa_invalida : Tarefa := MkTarefa "x" "classe desconhecida" 99.

(** The first task of the module's demonstration, whose description has
    53 code points, two of them outside ASCII, and a manager holding it. *)
Definition tarefa_demo : Tarefa :=
  MkTarefa "Corrigir bug crítico"
           "O sistema de login está falhando para alguns usuários" 1.

Definition gerenciador_demo : GerenciadorTarefas := com_fila novo 1 [tarefa_demo].

(** The task of the rendering example. *)
Definition tarefa_rotulo : Tarefa := MkTarefa "A" "d" 1.

(** ** Drivers and observations for the remaining methods *)

(** [fila.adicionar(t)] for each task of [ts], in order. *)
Fixpoint adicionar_todas (ts : list Tarefa) : M FilaTarefas unit :=
  match ts with
  | [] => ret tt
  | t :: ts' => let* _ := Fila.adicionar t in adicionar_todas ts'
  end.

(** [n] calls of [fila.remover()], with what each returned. *)
Fixpoint remover_n (n : nat) : M FilaTarefas (list (option Tarefa)) :=
  match n with
  | O => ret []
  | S n' =>
      let* r := Fila.remover in
      let* rs := remover_n n' in
      ret (r :: rs)
  end.

(** The pending tasks in the order of service: class by class in
    ascending order of the keys, each queue from its head. *)
Definition em_ordem (g : GerenciadorTarefas) : list Tarefa :=
  concat (pendentes_em g <$> chaves_ordenadas g).

(** The lines the listing prints for the tasks [ts], numbered from
    [i + 1]. *)
Fixpoint linhas_tarefas (i : nat) (ts : list Tarefa) : list string :=
  match ts with
  | [] => []
  | t :: ts' => linha_tarefa i t :: linhas_tarefas (S i) ts'
  end.

(** The lines the listing prints for class [k]. *)
Definition bloco_listagem (g : GerenciadorTarefas) (k : Z) : list string :=
  cabecalho_classe k (length (pendentes_em g k))
  :: match pendentes_em g k with
     | [] => ["Nenhuma tarefa nesta categoria"]
     | ts => linhas_tarefas 0 ts
     end.

Definition cabecalho_listagem : string := nova_linha +:+ "===== LISTA DE TAREFAS =====".
Definition linha_total (n : nat) : string :=
  nova_linha +:+ "Total: " +:+ pretty n +:+ " tarefas".
Definition regua_listagem : string := "============================".

(** The events of the submissions in a run, with the flag each returned. *)
Fixpoint submissoes (evs : list evento) : list (Tarefa * bool) :=
  match evs with
  | [] => []
  | Submetida t ok :: evs' => (t, ok) :: submissoes evs'
  | _ :: evs' => submissoes evs'
  end.

(** * Properties of the methods *)

(** ** Queue methods *)

Section fila.
Implicit Types (f : FilaTarefas) (t : Tarefa).

Lemma adicionar_run t f :
  Fila.adicionar t f = (Retorno tt, MkFila (tarefas f ++ [t]), []).
Proof. reflexivity. Qed.

Lemma esta_vazia_run f :
  Fila.esta_vazia f = (Retorno (bool_decide (tarefas f = [])), f, []).
Proof.
  unfold Fila.esta_vazia, bind, ler, ret; simpl.
  do 2 f_equal. f_equal. apply bool_decide_ext.
  destruct (tarefas f); simpl; split; congruence.
Qed.

Lemma remover_run f :
  Fila.remover f =
    match tarefas f with
    | [] => (Retorno None, f, [])
    | t :: resto => (Retorno (Some t), MkFila resto, [])
    end.
Proof. destruct f as [[|t r]]; reflexivity. Qed.

Lemma frente_run f :
  Fila.frente f = (Retorno (head (tarefas f)), f, []).
Proof. destruct f as [[|t r]]; reflexivity. Qed.

Lemma tamanho_run f :
  Fila.tamanho f = (Retorno (length (tarefas f)), f, []).
Proof. reflexivity. Qed.
End fila.

(** ** Calls through the dict *)

Section na_fila.
Implicit Types (g : GerenciadorTarefas) (f : FilaTarefas) (k : Z).

Lemma com_fila_mesma g k f :
  filas_prioridades g !! k = Some f → com_fila g k (tarefas f) = g.
Proof.
  intros H. destruct g as [m], f as [ts]; unfold com_fila; simpl in *.
  f_equal. by apply insert_id.
Qed.

Lemma na_fila_run {A} k (metodo : M FilaTarefas A) g f :
  filas_prioridades g !! k = Some f →
  na_fila k metodo g =
    (let '(r, f', o) := metodo f in (r, com_fila g k (tarefas f'), o)).
Proof.
  intros H. unfold na_fila. rewrite H.
  destruct (metodo f) as [[r [ts]] o]. reflexivity.
Qed.

Lemma na_fila_esta_vazia g k f :
  filas_prioridades g !! k = Some f →
  na_fila k Fila.esta_vazia g = (Retorno (bool_decide (tarefas f = [])), g, []).
Proof.
  intros H. rewrite (na_fila_run _ _ _ _ H), esta_vazia_run.
  by rewrite (com_fila_mesma _ _ _ H).
Qed.

Lemma na_fila_tamanho g k f :
  filas_prioridades g !! k = Some f →
  na_fila k Fila.tamanho g = (Retorno (length (tarefas f)), g, []).
Proof.
  intros H. rewrite (na_fila_run _ _ _ _ H), tamanho_run.
  by rewrite (com_fila_mesma _ _ _ H).
Qed.

Lemma na_fila_frente g k f :
  filas_prioridades g !! k = Some f →
  na_fila k Fila.frente g = (Retorno (head (tarefas f)), g, []).
Proof.
  intros H. rewrite (na_fila_run _ _ _ _ H), frente_run.
  by rewrite (com_fila_mesma _ _ _ H).
Qed.

Lemma na_fila_remover g k t resto :
  filas_prioridades g !! k = Some (MkFila (t :: resto)) →
  na_fila k Fila.remover g = (Retorno (Some t), com_fila g k resto, []).
Proof. intros H. by rewrite (na_fila_run _ _ _ _ H), remover_run. Qed.

Lemma na_fila_adicionar g k f t :
  filas_prioridades g !! k = Some f →
  na_fila k (Fila.adicionar t) g = (Retorno tt, com_fila g k (tarefas f ++ [t]), []).
Proof. intros H. by rewrite (na_fila_run _ _ _ _ H), adicionar_run. Qed.
End na_fila.

(** ** The sorted key list *)

Section chaves.
Implicit Types (g : GerenciadorTarefas) (k : Z).

Lemma chaves_ordenadas_perm g :
  chaves_ordenadas g ≡ₚ elements (dom (filas_prioridades g)).
Proof. apply merge_sort_Permutation. Qed.

Lemma elem_of_chaves_ordenadas g k :
  k ∈ chaves_ordenadas g ↔ is_Some (filas_prioridades g !! k).
Proof. by rewrite chaves_ordenadas_perm, elem_of_elements, elem_of_dom. Qed.

Lemma chaves_ordenadas_NoDup g : NoDup (chaves_ordenadas g).
Proof. rewrite chaves_ordenadas_perm. apply NoDup_elements. Qed.

Lemma chaves_ordenadas_sorted g : StronglySorted Z.le (chaves_ordenadas g).
Proof. apply (StronglySorted_merge_sort Z.le). Qed.

(** Whatever precedes [k] in the sorted key list is strictly below it. *)
Lemma chaves_ordenadas_antes g ks1 k ks2 j :
  chaves_ordenadas g = ks1 ++ k :: ks2 → j ∈ ks1 → j < k.
Proof.
  intros E Hj.
  pose proof (chaves_ordenadas_sorted g) as Hs.
  pose proof (chaves_ordenadas_NoDup g) as Hn.
  rewrite E in Hs, Hn.
  assert (j ≤ k) by (eapply (StronglySorted_app_1_elem_of Z.le); eauto; set_solver).
  apply NoDup_app in Hn as (_ & Hd & _).
  assert (j ≠ k) by (intros ->; apply (Hd k Hj); set_solver).
  lia.
Qed.

Lemma chaves_ordenadas_com_fila g k ts :
  is_Some (filas_prioridades g !! k) →
  chaves_ordenadas (com_fila g k ts) = chaves_ordenadas g.
Proof.
  intros H. unfold chaves_ordenadas, com_fila; simpl.
  rewrite dom_insert_L, subseteq_union_1_L; [done|].
  by apply singleton_subseteq_l, elem_of_dom.
Qed.
End chaves.

(** ** The scan loops *)

Section laco.
Implicit Types (g : GerenciadorTarefas) (k : Z) (ks : list Z).

Lemma proxima_laco_escolhe g ks1 k ks2 t resto :
  vazias_em g ks1 →
  filas_prioridades g !! k = Some (MkFila (t :: resto)) →
  proxima_tarefa_laco (ks1 ++ k :: ks2) g
  = (Retorno (Some t), com_fila g k resto, []).
Proof.
  intros Hv Hk. induction ks1 as [|j ks1 IH]; simpl.
  - unfold bind. rewrite (na_fila_esta_vazia _ _ _ Hk); simpl.
    by rewrite (na_fila_remover _ _ _ _ Hk).
  - destruct (Hv j) as (f & Hf & He); [set_solver|].
    unfold bind at 1. rewrite (na_fila_esta_vazia _ _ _ Hf), He; simpl.
    rewrite IH; [done|]. intros i Hi. apply Hv. set_solver.
Qed.

Lemma proxima_laco_vazio g ks :
  vazias_em g ks →
  proxima_tarefa_laco ks g = (Retorno None, g, [sem_pendentes]).
Proof.
  intros Hv. induction ks as [|j ks IH]; simpl; [done|].
  destruct (Hv j) as (f & Hf & He); [set_solver|].
  unfold bind at 1. rewrite (na_fila_esta_vazia _ _ _ Hf), He; simpl.
  rewrite IH; [done|]. intros i Hi. apply Hv. set_solver.
Qed.

Lemma visualizar_laco_escolhe g ks1 k ks2 t resto :
  vazias_em g ks1 →
  filas_prioridades g !! k = Some (MkFila (t :: resto)) →
  visualizar_proxima_tarefa_laco (ks1 ++ k :: ks2) g
  = (Retorno (Some t), g, []).
Proof.
  intros Hv Hk. induction ks1 as [|j ks1 IH]; simpl.
  - unfold bind. rewrite (na_fila_esta_vazia _ _ _ Hk); simpl.
    by rewrite (na_fila_frente _ _ _ Hk).
  - destruct (Hv j) as (f & Hf & He); [set_solver|].
    unfold bind at 1. rewrite (na_fila_esta_vazia _ _ _ Hf), He; simpl.
    rewrite IH; [done|]. intros i Hi. apply Hv. set_solver.
Qed.

Lemma visualizar_laco_vazio g ks :
  vazias_em g ks →
  visualizar_proxima_tarefa_laco ks g = (Retorno None, g, [sem_pendentes]).
Proof.
  intros Hv. induction ks as [|j ks IH]; simpl; [done|].
  destruct (Hv j) as (f & Hf & He); [set_solver|].
  unfold bind at 1. rewrite (na_fila_esta_vazia _ _ _ Hf), He; simpl.
  rewrite IH; [done|]. intros i Hi. apply Hv. set_solver.
Qed.

(** A list of keys of the dict either holds only empty queues or splits
    at its first non-empty one. *)
Lemma primeira_nao_vazia g ks :
  (∀ j, j ∈ ks → is_Some (filas_prioridades g !! j)) →
  vazias_em g ks ∨
  ∃ ks1 k ks2 t resto,
    ks = ks1 ++ k :: ks2 ∧ vazias_em g ks1 ∧
    filas_prioridades g !! k = Some (MkFila (t :: resto)).
Proof.
  induction ks as [|j ks IH]; intros Hd.
  - left. intros j Hj. set_solver.
  - assert (is_Some (filas_prioridades g !! j)) as [[[|t resto]] Hf]
      by (apply Hd; left).
    + destruct IH as [Hv|(ks1 & k & ks2 & t & resto & -> & Hv & Hk)].
      { intros i Hi. apply Hd. set_solver. }
      * left. intros i [->|Hi]%elem_of_cons; [eauto|by apply Hv].
      * right. exists (j :: ks1), k, ks2, t, resto. split_and!; [done| |done].
        intros i [->|Hi]%elem_of_cons; [eauto|by apply Hv].
    + right. exists [], j, ks, t, resto. split_and!; [done| |done].
      intros i Hi. set_solver.
Qed.
End laco.

(** ** [proxima_tarefa] and [visualizar_proxima_tarefa] *)

Section proxima.
Implicit Types (g : GerenciadorTarefas) (k : Z).

Lemma vazias_em_abaixo g ks1 k ks2 :
  chaves_ordenadas g = ks1 ++ k :: ks2 →
  vazio_abaixo g k → vazias_em g ks1.
Proof.
  intros E Hv j Hj.
  assert (is_Some (filas_prioridades g !! j)) as [f Hf].
  { apply elem_of_chaves_ordenadas. rewrite E. set_solver. }
  exists f. split; [done|].
  eapply Hv; [done|]. eapply chaves_ordenadas_antes; eauto.
Qed.

Lemma vazio_abaixo_vazias g ks1 k ks2 :
  chaves_ordenadas g = ks1 ++ k :: ks2 →
  vazias_em g ks1 → vazio_abaixo g k.
Proof.
  intros E Hv j f Hf Hjk.
  assert (j ∈ chaves_ordenadas g) as Hj by (apply elem_of_chaves_ordenadas; eauto).
  rewrite E in Hj. apply elem_of_app in Hj as [Hj|Hj].
  - destruct (Hv j Hj) as (f' & Hf' & He). congruence.
  - pose proof (chaves_ordenadas_sorted g) as Hs. rewrite E in Hs.
    apply StronglySorted_app_1_r, StronglySorted_inv in Hs as [_ Hs].
    apply elem_of_cons in Hj as [->|Hj]; [lia|].
    rewrite Forall_forall in Hs. specialize (Hs j Hj). lia.
Qed.

Lemma tudo_vazio_vazias g : tudo_vazio g ↔ vazias_em g (chaves_ordenadas g).
Proof.
  split.
  - intros Hv j [f Hf]%elem_of_chaves_ordenadas. eauto.
  - intros Hv j f Hf.
    destruct (Hv j) as (f' & Hf' & He); [|congruence].
    apply elem_of_chaves_ordenadas; eauto.
Qed.

(** [proxima_tarefa] dequeues the head of the lowest non-empty class. *)
Lemma proxima_tarefa_menor g k t resto :
  filas_prioridades g !! k = Some (MkFila (t :: resto)) →
  vazio_abaixo g k →
  proxima_tarefa g = (Retorno (Some t), com_fila g k resto, []).
Proof.
  intros Hk Hv.
  assert (k ∈ chaves_ordenadas g) as (ks1 & ks2 & E)%list_elem_of_split
    by (apply elem_of_chaves_ordenadas; eauto).
  unfold proxima_tarefa, bind, ler. rewrite E.
  rewrite (proxima_laco_escolhe g ks1 k ks2 t resto); [done| |done].
  by eapply vazias_em_abaixo.
Qed.

Lemma proxima_tarefa_vazio g :
  tudo_vazio g →
  proxima_tarefa g = (Retorno None, g, [sem_pendentes]).
Proof.
  intros Hv%tudo_vazio_vazias.
  unfold proxima_tarefa, bind, ler.
  by rewrite (proxima_laco_vazio _ _ Hv).
Qed.

Lemma visualizar_menor g k t resto :
  filas_prioridades g !! k = Some (MkFila (t :: resto)) →
  vazio_abaixo g k →
  visualizar_proxima_tarefa g = (Retorno (Some t), g, []).
Proof.
  intros Hk Hv.
  assert (k ∈ chaves_ordenadas g) as (ks1 & ks2 & E)%list_elem_of_split
    by (apply elem_of_chaves_ordenadas; eauto).
  unfold visualizar_proxima_tarefa, bind, ler. rewrite E.
  rewrite (visualizar_laco_escolhe g ks1 k ks2 t resto); [done| |done].
  by eapply vazias_em_abaixo.
Qed.

Lemma visualizar_vazio g :
  tudo_vazio g →
  visualizar_proxima_tarefa g = (Retorno None, g, [sem_pendentes]).
Proof.
  intros Hv%tudo_vazio_vazias.
  unfold visualizar_proxima_tarefa, bind, ler.
  by rewrite (visualizar_laco_vazio _ _ Hv).
Qed.

(** Every state is in one of the two cases. *)
Lemma estado_casos g :
  tudo_vazio g ∨
  ∃ k t resto,
    filas_prioridades g !! k = Some (MkFila (t :: resto)) ∧ vazio_abaixo g k.
Proof.
  destruct (primeira_nao_vazia g (chaves_ordenadas g))
    as [Hv|(ks1 & k & ks2 & t & resto & E & Hv & Hk)].
  - intros j. apply elem_of_chaves_ordenadas.
  - left. by apply tudo_vazio_vazias.
  - right. exists k, t, resto. split; [done|]. by eapply vazio_abaixo_vazias.
Qed.
End proxima.

(** ** Counting pending tasks *)

Section pendentes.
Implicit Types (g : GerenciadorTarefas) (k : Z) (f : FilaTarefas).

Lemma pendentes_com_fila g k f ts :
  filas_prioridades g !! k = Some f →
  (pendentes (com_fila g k ts) + length (tarefas f) = pendentes g + length ts)%nat.
Proof.
  intros H. destruct g as [m]; unfold pendentes, com_fila; simpl in *.
  rewrite <-(insert_delete_id m k f H) at 2.
  rewrite <-(insert_delete_eq m k (MkFila ts)).
  rewrite !map_to_list_insert by apply lookup_delete_eq.
  simpl. lia.
Qed.

Lemma pendentes_zero g : pendentes g = 0%nat ↔ tudo_vazio g.
Proof.
  unfold pendentes, tudo_vazio. split.
  - intros Hz j f Hf%elem_of_map_to_list.
    apply (sum_list_with_in _ (λ kf, length (tarefas kf.2))) in Hf.
    simpl in Hf. apply length_zero_iff_nil. lia.
  - intros Hv.
    assert (∀ l : list (Z * FilaTarefas),
      (∀ j f, (j, f) ∈ l → tarefas f = []) →
      sum_list_with (λ kf, length (tarefas kf.2)) l = 0%nat) as Hl.
    { induction l as [|[j f] l IH]; intros Hall; simpl; [done|].
      rewrite (Hall j f), IH; [done| |left].
      intros i f' Hi. apply (Hall i). by right. }
    apply Hl. intros j f Hf%elem_of_map_to_list. eauto.
Qed.

Lemma pendentes_novo : pendentes novo = 0%nat.
Proof. reflexivity. Qed.
End pendentes.

(** ** [estatisticas] *)

Section estatisticas.
Implicit Types (g : GerenciadorTarefas) (k : Z) (f : FilaTarefas).

Lemma tamanhos_run g (l : list (Z * FilaTarefas)) :
  (∀ k f, (k, f) ∈ l → filas_prioridades g !! k = Some f) →
  tamanhos (l.*1) g = (Retorno ((length ∘ tarefas) <$> l.*2), g, []).
Proof.
  induction l as [|[k f] l IH]; intros Hl; [done|].
  rewrite !fmap_cons. cbn [tamanhos fst snd].
  unfold bind at 1. rewrite (na_fila_tamanho g k f) by (apply Hl; left).
  unfold bind at 1. rewrite IH; [done|].
  intros j f' Hj. apply Hl. by right.
Qed.

Lemma estatisticas_run g :
  estatisticas g =
    (Retorno (MkEstatisticas (pendentes g)
                ((length ∘ tarefas) <$> filas_prioridades g)), g, []).
Proof.
  unfold estatisticas, bind at 1, ler.
  assert (∀ k f, (k, f) ∈ map_to_list (filas_prioridades g) →
                 filas_prioridades g !! k = Some f) as Hl
    by (intros k f; apply elem_of_map_to_list).
  unfold bind at 1. rewrite (tamanhos_run g _ Hl).
  unfold bind at 1. rewrite (tamanhos_run g _ Hl). simpl.
  assert (sum_list ((length ∘ tarefas) <$> (map_to_list (filas_prioridades g)).*2)
          = pendentes g) as ->.
  { unfold pendentes. generalize (map_to_list (filas_prioridades g)).
    induction l as [|[k f] l IH]; [done|].
    rewrite !fmap_cons. simpl. f_equal. exact IH. }
  assert (list_to_map (zip (map_to_list (filas_prioridades g)).*1
            ((length ∘ tarefas) <$> (map_to_list (filas_prioridades g)).*2))
          =@{gmap Z nat} (length ∘ tarefas) <$> filas_prioridades g) as ->; [|done].
  rewrite <-(list_to_map_to_list (filas_prioridades g)) at 3.
  rewrite <-list_to_map_fmap. f_equal.
  generalize (map_to_list (filas_prioridades g)).
  induction l as [|[k f] l IH]; [done|].
  rewrite !fmap_cons. simpl. f_equal. exact IH.
Qed.
End estatisticas.

(** ** [adicionar_tarefa] *)

Section adicionar.
Implicit Types (g : GerenciadorTarefas) (t : Tarefa).

Lemma adicionar_tarefa_invalida g t :
  filas_prioridades g !! prioridade t = None →
  adicionar_tarefa t g = (Retorno false, g, [erro_prioridade t]).
Proof.
  intros H. unfold adicionar_tarefa, bind at 1, ler.
  rewrite bool_decide_eq_true_2 by by apply not_elem_of_dom.
  reflexivity.
Qed.

Lemma adicionar_tarefa_valida g t f :
  filas_prioridades g !! prioridade t = Some f →
  adicionar_tarefa t g
  = (Retorno true, com_fila g (prioridade t) (tarefas f ++ [t]), [confirmacao t]).
Proof.
  intros H. unfold adicionar_tarefa, bind at 1, ler.
  rewrite bool_decide_eq_false_2
    by (intros Hn; apply not_elem_of_dom in Hn; congruence).
  unfold bind at 1. rewrite (na_fila_adicionar _ _ _ _ H).
  reflexivity.
Qed.
End adicionar.

(** ** Runs of the driver *)

Section execucao.
Implicit Types (g : GerenciadorTarefas) (k : Z) (t : Tarefa) (ops : list operacao).

Lemma bind_retorno {S A B} (c : M S A) (f : A → M S B) s a s' o :
  c s = (Retorno a, s', o) →
  bind c f s = (let '(r, s'', o') := f a s' in (r, s'', o ++ o')).
Proof. intros H. unfold bind. rewrite H. by destruct (f a s') as [[??]?]. Qed.

Lemma pendentes_em_com_fila g k ts j :
  pendentes_em (com_fila g k ts) j = if decide (j = k) then ts else pendentes_em g j.
Proof.
  unfold pendentes_em, com_fila; simpl. destruct (decide (j = k)) as [->|Hne].
  - by rewrite lookup_insert_eq.
  - by rewrite lookup_insert_ne.
Qed.

Lemma pendentes_em_Some g k f :
  filas_prioridades g !! k = Some f → pendentes_em g k = tarefas f.
Proof. intros H. unfold pendentes_em. by rewrite H. Qed.

Lemma pendentes_em_None g k :
  filas_prioridades g !! k = None → pendentes_em g k = [].
Proof. intros H. unfold pendentes_em. by rewrite H. Qed.

Lemma dom_com_fila g k ts :
  is_Some (filas_prioridades g !! k) →
  dom (filas_prioridades (com_fila g k ts)) = dom (filas_prioridades g).
Proof.
  intros H. unfold com_fila; simpl.
  rewrite dom_insert_L, subseteq_union_1_L; [done|].
  by apply singleton_subseteq_l, elem_of_dom.
Qed.

Lemma bem_formado_com_fila g k ts :
  bem_formado g → (∀ t, t ∈ ts → prioridade t = k) →
  bem_formado (com_fila g k ts).
Proof.
  intros Hg Hts j f t. unfold com_fila; simpl.
  destruct (decide (j = k)) as [->|Hne].
  - rewrite lookup_insert_eq. intros [= <-]. simpl. apply Hts.
  - rewrite lookup_insert_ne by done. apply Hg.
Qed.

Lemma bem_formado_novo : bem_formado novo.
Proof.
  intros k f t. unfold novo; simpl. intros Hk Ht.
  repeat (apply lookup_insert_Some in Hk as [[_ <-]|[_ Hk]];
          [by apply elem_of_nil in Ht|]).
  by rewrite lookup_empty in Hk.
Qed.

(** A run never raises, keeps the set of classes, and conserves tasks. *)
Lemma executar_conserva ops g :
  ∃ evs g' saida,
    executar ops g = (Retorno evs, g', saida) ∧
    dom (filas_prioridades g') = dom (filas_prioridades g) ∧
    (pendentes g' + length (retiradas evs)
     = pendentes g + length (submetidas evs))%nat.
Proof.
  revert g. induction ops as [|[t|] ops IH]; intros g; simpl.
  - by exists [], g, [].
  - destruct (filas_prioridades g !! prioridade t) as [f|] eqn:Hp.
    + destruct (IH (com_fila g (prioridade t) (tarefas f ++ [t])))
        as (evs & g' & o & Hrun & Hdom & Hcount).
      rewrite (bind_retorno _ _ _ _ _ _ (adicionar_tarefa_valida _ _ _ Hp)).
      rewrite (bind_retorno _ _ _ _ _ _ Hrun). simpl.
      eexists _, _, _. split; [done|]. split.
      * rewrite Hdom. by apply dom_com_fila.
      * pose proof (pendentes_com_fila g _ f (tarefas f ++ [t]) Hp) as Hc.
        rewrite length_app in Hc. simpl in *. lia.
    + destruct (IH g) as (evs & g' & o & Hrun & Hdom & Hcount).
      rewrite (bind_retorno _ _ _ _ _ _ (adicionar_tarefa_invalida _ _ Hp)).
      rewrite (bind_retorno _ _ _ _ _ _ Hrun). simpl.
      by eexists _, _, _.
  - destruct (estado_casos g) as [Hv|(k & t & resto & Hk & Hv)].
    + destruct (IH g) as (evs & g' & o & Hrun & Hdom & Hcount).
      rewrite (bind_retorno _ _ _ _ _ _ (proxima_tarefa_vazio _ Hv)).
      rewrite (bind_retorno _ _ _ _ _ _ Hrun). simpl.
      by eexists _, _, _.
    + destruct (IH (com_fila g k resto)) as (evs & g' & o & Hrun & Hdom & Hcount).
      rewrite (bind_retorno _ _ _ _ _ _ (proxima_tarefa_menor _ _ _ _ Hk Hv)).
      rewrite (bind_retorno _ _ _ _ _ _ Hrun). simpl.
      eexists _, _, _. split; [done|]. split.
      * rewrite Hdom. by apply dom_com_fila.
      * pose proof (pendentes_com_fila g _ _ resto Hk) as Hc.
        simpl in *. lia.
Qed.

(** Case analysis on the rest of a run, keeping only the case in which
    it returns. *)
Ltac resto_da_execucao evs g Hrun :=
  cbv beta; unfold bind at 1;
  lazymatch goal with
  | |- context [executar ?ops ?s] =>
      let e := fresh "e" in
      let o := fresh "o" in
      destruct (executar ops s) as [[[evs|e] g] o] eqn:Hrun; simpl;
      [|discriminate]
  end.

(** Per class, what was served followed by what is pending is what was
    pending followed by what was accepted. *)
Lemma executar_fifo ops g evs g' saida :
  bem_formado g →
  executar ops g = (Retorno evs, g', saida) →
  bem_formado g' ∧
  ∀ k, da_classe k (retiradas evs) ++ pendentes_em g' k
       = pendentes_em g k ++ da_classe k (submetidas evs).
Proof.
  revert g evs g' saida.
  induction ops as [|[t|] ops IH]; intros g evs g' saida Hg; simpl.
  - intros [= <- <- <-]. split; [done|]. intros k. simpl.
    unfold da_classe. by rewrite filter_nil, app_nil_r.
  - destruct (filas_prioridades g !! prioridade t) as [f|] eqn:Hp.
    + rewrite (bind_retorno _ _ _ _ _ _ (adicionar_tarefa_valida _ _ _ Hp)).
      resto_da_execucao evs' g1 Hrun.
      intros [= <- <- <-].
      apply IH in Hrun as [Hg' Heq].
      2:{ apply bem_formado_com_fila; [done|].
          intros t' [Ht'| ->%list_elem_of_singleton]%elem_of_app; [|done].
          by eapply Hg. }
      split; [done|]. intros k. rewrite Heq, pendentes_em_com_fila.
      simpl. unfold da_classe.
      destruct (decide (k = prioridade t)) as [->|Hne].
      * rewrite filter_cons_True by done.
        by rewrite (pendentes_em_Some _ _ _ Hp), <-app_assoc.
      * by rewrite filter_cons_False by done.
    + rewrite (bind_retorno _ _ _ _ _ _ (adicionar_tarefa_invalida _ _ Hp)).
      resto_da_execucao evs' g1 Hrun.
      intros [= <- <- <-]. by apply IH in Hrun.
  - destruct (estado_casos g) as [Hv|(k & t & resto & Hk & Hv)].
    + rewrite (bind_retorno _ _ _ _ _ _ (proxima_tarefa_vazio _ Hv)).
      resto_da_execucao evs' g1 Hrun.
      intros [= <- <- <-]. by apply IH in Hrun.
    + rewrite (bind_retorno _ _ _ _ _ _ (proxima_tarefa_menor _ _ _ _ Hk Hv)).
      resto_da_execucao evs' g1 Hrun.
      intros [= <- <- <-].
      assert (prioridade t = k) as Hpt by (eapply Hg; [done|simpl; left]).
      apply IH in Hrun as [Hg' Heq].
      2:{ apply bem_formado_com_fila; [done|].
          intros t' Ht'. eapply Hg; [done|]. simpl. by right. }
      split; [done|]. intros j. simpl. unfold da_classe.
      destruct (decide (j = k)) as [->|Hne].
      * rewrite filter_cons_True by done. simpl.
        fold (da_classe k (retiradas evs')).
        rewrite Heq, pendentes_em_com_fila, decide_True by done.
        by rewrite (pendentes_em_Some _ _ _ Hk).
      * rewrite filter_cons_False by congruence.
        fold (da_classe j (retiradas evs')).
        by rewrite Heq, pendentes_em_com_fila, decide_False by done.
Qed.
End execucao.

(** Resolves a lookup in a dict written as a chain of insertions. *)
Ltac chave_concreta H :=
  repeat (apply lookup_insert_Some in H as [[? ?]|[? H]]; [subst|]);
  try (by rewrite lookup_empty in H).

Lemma gerenciador_exemplo_run :
  executar [Submeter tarefa_baixa; Submeter tarefa_alta] novo
  = (Retorno [Submetida tarefa_baixa true; Submetida tarefa_alta true],
     gerenciador_exemplo,
     [confirmacao tarefa_baixa; confirmacao tarefa_alta]).
Proof. vm_compute. reflexivity. Qed.

Lemma gerenciador_exemplo_bem_formado : bem_formado gerenciador_exemplo.
Proof.
  intros k f t Hk Ht. unfold gerenciador_exemplo, com_fila, novo in Hk.
  simpl in Hk. chave_concreta Hk; simpl in Ht;
    repeat (apply elem_of_cons in Ht as [->|Ht]; [done|]);
    by apply elem_of_nil in Ht.
Qed.

Lemma gerenciador_exemplo_vazio_abaixo : vazio_abaixo gerenciador_exemplo 1.
Proof.
  intros j f Hj Hlt. unfold gerenciador_exemplo, com_fila, novo in Hj.
  simpl in Hj. chave_concreta Hj; try lia; done.
Qed.

(** ** Counting over the sorted keys *)

Section contagem_por_chaves.
Implicit Types (g : GerenciadorTarefas) (k : Z).

Lemma chaves_ordenadas_map_to_list g :
  chaves_ordenadas g ≡ₚ (map_to_list (filas_prioridades g)).*1.
Proof.
  apply NoDup_Permutation.
  - apply chaves_ordenadas_NoDup.
  - apply NoDup_fst_map_to_list.
  - intros k. rewrite elem_of_chaves_ordenadas, list_elem_of_fmap. split.
    + intros [f Hf]. exists (k, f). split; [done|]. by apply elem_of_map_to_list.
    + intros ([j f] & -> & Hf%elem_of_map_to_list). simpl. eauto.
Qed.

Lemma pendentes_por_chaves g :
  pendentes g
  = sum_list_with (λ k, length (pendentes_em g k)) (chaves_ordenadas g).
Proof.
  rewrite chaves_ordenadas_map_to_list. unfold pendentes.
  assert (∀ k f, (k, f) ∈ map_to_list (filas_prioridades g) →
                 pendentes_em g k = tarefas f) as Hl.
  { intros k f Hf%elem_of_map_to_list. by apply pendentes_em_Some. }
  revert Hl. generalize (map_to_list (filas_prioridades g)).
  induction l as [|[k f] l IH]; intros Hl; [done|].
  rewrite fmap_cons. simpl. rewrite (Hl k f) by left.
  f_equal. apply IH. intros j f' Hj. apply Hl. by right.
Qed.
End contagem_por_chaves.

(** ** Substrings of a rendering *)

Lemma prefix_append (sub depois : string) : String.prefix sub (sub +:+ depois) = true.
Proof.
  induction sub as [|a sub IH]; simpl; [by destruct depois|].
  by destruct (Ascii.ascii_dec a a).
Qed.

Lemma contem_append (sub antes depois : string) :
  contem sub (antes +:+ sub +:+ depois) = true.
Proof.
  induction antes as [|a antes IH].
  - change (contem sub (sub +:+ depois) = true).
    pose proof (prefix_append sub depois) as H.
    destruct (sub +:+ depois); unfold contem; fold contem; by rewrite H.
  - change (contem sub (String a (antes +:+ sub +:+ depois)) = true).
    simpl. rewrite IH. apply orb_true_r.
Qed.

(** ** Draining a manager *)





(** * The claims *)

(** C1. Strict order across classes.  In every manager state,
    [proxima_tarefa] returns (and dequeues) the head of the queue of the
    numerically smallest class whose queue is non-empty; in a state built
    by the manager's own operations that task carries that class as its
    priority.  In particular, when a task of a higher class number and a
    task of a lower class number are both pending, the call returns a task
    of priority at most the lower number, hence not the low-priority task,
    which stays pending. *)
Theorem C1_ordem_estrita_entre_classes (g : GerenciadorTarefas) :
  (∀ k t resto,
      filas_prioridades g !! k = Some (MkFila (t :: resto)) →
      vazio_abaixo g k →
      proxima_tarefa g = (Retorno (Some t), com_fila g k resto, []) ∧
      (bem_formado g → prioridade t = k))
  ∧
  (∀ p_alta p_baixa alta baixa,
      bem_formado g →
      alta ∈ pendentes_em g p_alta →
      baixa ∈ pendentes_em g p_baixa →
      p_alta < p_baixa →
      ∃ t g',
        proxima_tarefa g = (Retorno (Some t), g', []) ∧
        prioridade t ≤ p_alta ∧
        t ≠ baixa ∧
        pendentes_em g' p_baixa = pendentes_em g p_baixa).
Proof.
  split.
  - intros k t resto Hk Hv. split; [by apply proxima_tarefa_menor|].
    intros Hg. eapply Hg; [done|]. simpl. left.
  - intros p_alta p_baixa alta baixa Hg Ha Hb Hlt.
    destruct (estado_casos g) as [Hv|(k & t & resto & Hk & Hv)].
    + exfalso. unfold pendentes_em in Ha.
      destruct (filas_prioridades g !! p_alta) as [f|] eqn:Hf;
        [|by apply elem_of_nil in Ha].
      rewrite (Hv _ _ Hf) in Ha. by apply elem_of_nil in Ha.
    + assert (prioridade t = k) as Hpt by (eapply Hg; [done|simpl; left]).
      assert (k ≤ p_alta) as Hle.
      { destruct (decide (k ≤ p_alta)) as [|Hgt]; [done|]. exfalso.
        unfold pendentes_em in Ha.
        destruct (filas_prioridades g !! p_alta) as [f|] eqn:Hf;
          [|by apply elem_of_nil in Ha].
        rewrite (Hv _ _ Hf) in Ha by lia. by apply elem_of_nil in Ha. }
      assert (prioridade baixa = p_baixa) as Hpb.
      { unfold pendentes_em in Hb.
        destruct (filas_prioridades g !! p_baixa) as [f|] eqn:Hf;
          [|by apply elem_of_nil in Hb].
        by eapply Hg. }
      exists t, (com_fila g k resto). split_and!.
      * by apply proxima_tarefa_menor.
      * lia.
      * intros ->. lia.
      * rewrite pendentes_em_com_fila, decide_False by lia. done.
Qed.

Lemma C1_ordem_estrita_exemplo :
  (proxima_tarefa gerenciador_exemplo
   = (Retorno (Some tarefa_alta), com_fila gerenciador_exemplo 1 [], []) ∧
   (bem_formado gerenciador_exemplo → prioridade tarefa_alta = 1))
  ∧
  ∃ t g',
    proxima_tarefa gerenciador_exemplo = (Retorno (Some t), g', []) ∧
    prioridade t ≤ 1 ∧
    t ≠ tarefa_baixa ∧
    pendentes_em g' 3 = pendentes_em gerenciador_exemplo 3.
Proof.
  destruct (C1_ordem_estrita_entre_classes gerenciador_exemplo) as [H1 H2].
  split.
  - apply (H1 1 tarefa_alta []).
    + reflexivity.
    + exact gerenciador_exemplo_vazio_abaixo.
  - apply (H2 1 3 tarefa_alta tarefa_baixa).
    + exact gerenciador_exemplo_bem_formado.
    + vm_compute. left.
    + vm_compute. left.
    + lia.
Defined.



(** The run of the example above and its continuation: the two tasks of
    class 1 come out in the order they entered, before the task of
    class 3. *)
Lemma exemplo_fifo_continuacao :
  executar [Submeter tarefa_alta_2; Proxima] gerenciador_exemplo
  = (Retorno [Submetida tarefa_alta_2 true; Retirada (Some tarefa_alta)],
     com_fila (com_fila novo 3 [tarefa_baixa]) 1 [tarefa_alta_2],
     [confirmacao tarefa_alta_2]) ∧
  executar (replicate 2 Proxima)
    (com_fila (com_fila novo 3 [tarefa_baixa]) 1 [tarefa_alta_2])
  = (Retorno [Retirada (Some tarefa_alta_2); Retirada (Some tarefa_baixa)],
     novo, []).
Proof. split; vm_compute; reflexivity. Qed.

Lemma exemplo_fifo_run :
  executar [Submeter tarefa_alta_2; Proxima; Proxima] gerenciador_exemplo
  = (Retorno [Submetida tarefa_alta_2 true;
              Retirada (Some tarefa_alta); Retirada (Some tarefa_alta_2)],
     com_fila novo 3 [tarefa_baixa],
     [confirmacao tarefa_alta_2]).
Proof. vm_compute. reflexivity. Qed.

(** C3. The example trace: on a fresh manager, submitting A (class 1),
    B (class 2) and C (class 1) and then calling [proxima_tarefa] three
    times returns A, C and B, and [estatisticas] then reports a total of 0
    and the counts 1:0, 2:0, 3:0. *)
Theorem C3_traco_exemplo (dA dB dC : string) :
  let A := MkTarefa "A" dA 1 in
  let B := MkTarefa "B" dB 2 in
  let C := MkTarefa "C" dC 1 in
  (let* okA := adicionar_tarefa A in
   let* okB := adicionar_tarefa B in
   let* okC := adicionar_tarefa C in
   let* r1 := proxima_tarefa in
   let* r2 := proxima_tarefa in
   let* r3 := proxima_tarefa in
   let* st := estatisticas in
   ret (okA, okB, okC, r1, r2, r3, st)) novo
  = (Retorno (true, true, true, Some A, Some C, Some B,
              MkEstatisticas 0 (<[1 := 0%nat]> (<[2 := 0%nat]> (<[3 := 0%nat]> ∅)))),
     novo,
     ["Tarefa 'A' adicionada com prioridade 1";
      "Tarefa 'B' adicionada com prioridade 2";
      "Tarefa 'C' adicionada com prioridade 1"]).
Proof. vm_compute. reflexivity. Qed.

(** C4. Rejection of an unrecognized class.  In every manager state,
    submitting a task whose priority is not a key of the dict returns
    [False] (it does not raise), prints the error line, and leaves the
    manager exactly as it was: the task is in no queue, every queue and
    the statistics are unchanged, and any call made afterwards behaves as
    if the rejected submission had not happened (apart from the printed
    line). *)
Theorem C4_prioridade_invalida (g : GerenciadorTarefas) (t : Tarefa) :
  prioridade t ∉ dom (filas_prioridades g) →
  adicionar_tarefa t g = (Retorno false, g, [erro_prioridade t]) ∧
  (bem_formado g → ∀ k, t ∉ pendentes_em g k) ∧
  (let* _ := adicionar_tarefa t in estatisticas) g
  = (Retorno (MkEstatisticas (pendentes g)
                ((length ∘ tarefas) <$> filas_prioridades g)),
     g, [erro_prioridade t]) ∧
  (∀ A (depois : M GerenciadorTarefas A),
      (let* _ := adicionar_tarefa t in depois) g
      = (let '(r, g', saida) := depois g in (r, g', erro_prioridade t :: saida))).
Proof.
  intros Hp%not_elem_of_dom.
  pose proof (adicionar_tarefa_invalida g t Hp) as Hrun.
  split_and!; [done| | |].
  - intros Hg k Hk. unfold pendentes_em in Hk.
    destruct (filas_prioridades g !! k) as [f|] eqn:Hf;
      [|by apply elem_of_nil in Hk].
    rewrite <-(Hg _ _ _ Hf Hk) in Hf. congruence.
  - by rewrite (bind_retorno _ _ _ _ _ _ Hrun), estatisticas_run.
  - intros A depois. by rewrite (bind_retorno _ _ _ _ _ _ Hrun).
Qed.

Lemma gerenciador_exemplo_sem_99 :
  prioridade tarefa_invalida ∉ dom (filas_prioridades gerenciador_exemplo).
Proof.
  apply not_elem_of_dom. reflexivity.
Qed.

Lemma C4_prioridade_invalida_exemplo :
  adicionar_tarefa tarefa_invalida gerenciador_exemplo
  = (Retorno false, gerenciador_exemplo, ["Erro: Prioridade inválida (99)"]) ∧
  (bem_formado gerenciador_exemplo →
   ∀ k, tarefa_invalida ∉ pendentes_em gerenciador_exemplo k) ∧
  (let* _ := adicionar_tarefa tarefa_invalida in estatisticas) gerenciador_exemplo
  = (Retorno (MkEstatisticas (pendentes gerenciador_exemplo)
                ((length ∘ tarefas) <$> filas_prioridades gerenciador_exemplo)),
     gerenciador_exemplo, ["Erro: Prioridade inválida (99)"]) ∧
  (∀ A (depois : M GerenciadorTarefas A),
      (let* _ := adicionar_tarefa tarefa_invalida in depois) gerenciador_exemplo
      = (let '(r, g', saida) := depois gerenciador_exemplo in
         (r, g', "Erro: Prioridade inválida (99)" :: saida))).
Proof.
  apply (C4_prioridade_invalida gerenciador_exemplo tarefa_invalida).
  exact gerenciador_exemplo_sem_99.
Defined.

(** C5. Conservation.  After any sequence of submissions and
    [proxima_tarefa] calls on a fresh manager, the run has not raised and
    the total reported by [estatisticas] is the number of accepted
    submissions minus the number of calls that returned a task. *)
Theorem C5_conservacao (ops : list operacao) :
  ∃ evs g' saida st,
    executar ops novo = (Retorno evs, g', saida) ∧
    estatisticas g' = (Retorno st, g', []) ∧
    (length (retiradas evs) ≤ length (submetidas evs))%nat ∧
    total st = (length (submetidas evs) - length (retiradas evs))%nat.
Proof.
  destruct (executar_conserva ops novo) as (evs & g' & saida & Hrun & _ & Hc).
  rewrite pendentes_novo in Hc.
  eexists evs, g', saida, _. split; [done|].
  split; [apply estatisticas_run|]. simpl. lia.
Qed.

(** C6. Statistics.  In every manager state, [estatisticas] returns
    without raising, printing or changing the manager; its total is the
    sum of the sizes of the queues of all classes, and its per-class dict
    has exactly the classes of the manager as keys, each mapped to the
    current size of its queue (zero included); the total is also the sum
    of the per-class counts. *)
Theorem C6_estatisticas (g : GerenciadorTarefas) :
  ∃ st,
    estatisticas g = (Retorno st, g, []) ∧
    total st = sum_list_with (λ k, length (pendentes_em g k)) (chaves_ordenadas g) ∧
    dom (por_prioridade st) = dom (filas_prioridades g) ∧
    (∀ k, por_prioridade st !! k
          = (length ∘ tarefas) <$> (filas_prioridades g !! k)) ∧
    total st = sum_list ((map_to_list (por_prioridade st)).*2).
Proof.
  eexists. split; [apply estatisticas_run|]. simpl. split_and!.
  - apply pendentes_por_chaves.
  - apply dom_fmap_L.
  - intros k. apply lookup_fmap.
  - unfold pendentes. rewrite map_to_list_fmap.
    generalize (map_to_list (filas_prioridades g)).
    induction l as [|[k f] l IH]; [done|].
    rewrite !fmap_cons. simpl. f_equal. exact IH.
Qed.

(** C7. [visualizar_proxima_tarefa] is pure and idempotent.  In every
    manager state the call returns without raising and leaves the manager
    as it was; two calls in a row return the same answer; the statistics
    taken after it are those taken before it; and its answer (and what it
    prints) is the answer [proxima_tarefa] gives in the same state: the
    head of the lowest non-empty class, or [None] with the "no pending
    tasks" line when every queue is empty.  [proxima_tarefa] differs only
    in dequeuing that head. *)
Theorem C7_visualizar_pura (g : GerenciadorTarefas) :
  ∃ r saida g',
    visualizar_proxima_tarefa g = (Retorno r, g, saida) ∧
    (let* r1 := visualizar_proxima_tarefa in
     let* r2 := visualizar_proxima_tarefa in
     ret (r1, r2)) g = (Retorno (r, r), g, saida ++ saida) ∧
    (let* _ := visualizar_proxima_tarefa in estatisticas) g
    = (Retorno (MkEstatisticas (pendentes g)
                  ((length ∘ tarefas) <$> filas_prioridades g)), g, saida) ∧
    estatisticas g
    = (Retorno (MkEstatisticas (pendentes g)
                  ((length ∘ tarefas) <$> filas_prioridades g)), g, []) ∧
    proxima_tarefa g = (Retorno r, g', saida) ∧
    match r with
    | None => tudo_vazio g ∧ g' = g ∧ saida = [sem_pendentes]
    | Some t =>
        ∃ k resto,
          filas_prioridades g !! k = Some (MkFila (t :: resto)) ∧
          vazio_abaixo g k ∧ g' = com_fila g k resto ∧ saida = []
    end.
Proof.
  destruct (estado_casos g) as [Hv|(k & t & resto & Hk & Hv)].
  - pose proof (visualizar_vazio g Hv) as Hrun.
    exists None, [sem_pendentes], g. split_and!; try done.
    + rewrite (bind_retorno _ _ _ _ _ _ Hrun).
      by rewrite (bind_retorno _ _ _ _ _ _ Hrun).
    + by rewrite (bind_retorno _ _ _ _ _ _ Hrun), estatisticas_run.
    + apply estatisticas_run.
    + by apply proxima_tarefa_vazio.
  - pose proof (visualizar_menor g k t resto Hk Hv) as Hrun.
    exists (Some t), [], (com_fila g k resto). split_and!; try done.
    + rewrite (bind_retorno _ _ _ _ _ _ Hrun).
      by rewrite (bind_retorno _ _ _ _ _ _ Hrun).
    + by rewrite (bind_retorno _ _ _ _ _ _ Hrun), estatisticas_run.
    + apply estatisticas_run.
    + by apply proxima_tarefa_menor.
    + by exists k, resto.
Qed.

(** C8. Exhaustion.  From every manager state, as many [proxima_tarefa]
    calls as there are pending tasks each return a task; after them every
    queue is empty, [estatisticas] reports a total of 0, and one more
    [proxima_tarefa] call returns [None], without raising and without
    changing the manager. *)
Theorem C8_exaustao (g : GerenciadorTarefas) :
  ∃ ts g' saida st,
    executar (replicate (pendentes g) Proxima) g
    = (Retorno ((Retirada ∘ Some) <$> ts), g', saida) ∧
    length ts = pendentes g ∧
    tudo_vazio g' ∧
    proxima_tarefa g' = (Retorno None, g', [sem_pendentes]) ∧
    estatisticas g' = (Retorno st, g', []) ∧
    total st = 0%nat.
Proof.
  remember (pendentes g) as n eqn:Hn. revert g Hn.
  induction n as [|n IH]; intros g Hn.
  - assert (tudo_vazio g) as Hv by by apply pendentes_zero.
    eexists [], g, [], _. split_and!; try done.
    + by apply proxima_tarefa_vazio.
    + apply estatisticas_run.
    + done.
  - destruct (estado_casos g) as [Hv|(k & t & resto & Hk & Hv)].
    { apply pendentes_zero in Hv. lia. }
    pose proof (pendentes_com_fila g k _ resto Hk) as Hc. simpl in Hc.
    destruct (IH (com_fila g k resto)) as (ts & g' & o & st & Hrun & Hlen & Hrest);
      [lia|].
    eexists (t :: ts), g', _, st. split_and!.
    + simpl.
      rewrite (bind_retorno _ _ _ _ _ _ (proxima_tarefa_menor _ _ _ _ Hk Hv)).
      by rewrite (bind_retorno _ _ _ _ _ _ Hrun).
    + simpl. lia.
    + apply Hrest.
    + apply Hrest.
    + apply Hrest.
    + apply Hrest.
Qed.

(** C9, as stated, fails: the rendering of a task of priority 1 is
    "Tarefa: A (Prioridade: Alta)", a line break, "Descrição: d"; the label
    "High" of the specification occurs nowhere in it. *)
Lemma C9_rotulos_contraexemplo :
  Tarefa_str tarefa_rotulo
  = "Tarefa: A (Prioridade: Alta)" +:+ nova_linha +:+ "Descrição: d" ∧
  ¬ ∃ antes depois,
      Tarefa_str tarefa_rotulo
      = antes +:+ rotulo_da_especificacao (prioridade tarefa_rotulo) +:+ depois.
Proof.
  split; [reflexivity|].
  intros (antes & depois & E).
  pose proof (contem_append (rotulo_da_especificacao (prioridade tarefa_rotulo))
                antes depois) as H.
  rewrite <-E in H. vm_compute in H. discriminate.
Qed.

(** C9 (amended).  The rendering of a task is "Tarefa: ", its name,
    " (Prioridade: ", the label of its priority, ")", a line break,
    "Descrição: " and its description, where the label is "Alta" for 1,
    "Média" for 2, "Baixa" for 3 and "Desconhecida" for any other value. *)
Theorem C9_rotulos (t : Tarefa) :
  Tarefa_str t
  = "Tarefa: " +:+ nome t +:+ " (Prioridade: "
    +:+ match prioridade t with
        | 1 => "Alta"
        | 2 => "Média"
        | 3 => "Baixa"
        | _ => "Desconhecida"
        end
    +:+ ")" +:+ nova_linha +:+ "Descrição: " +:+ descricao t.
Proof.
  unfold Tarefa_str, prioridade_texto.
  destruct (prioridade t) as [|[[p|p|]|[p|p|]|]|p];
    repeat case_decide; try done; lia.
Qed.

(** C10. Frame of a successful submission.  In every manager state, a
    task whose priority is a key of the dict is accepted: the call returns
    [True], prints the confirmation, the queue of that priority becomes
    its former contents followed by the task, and the queue of every other
    class, like the set of classes, is unchanged. *)
Theorem C10_submissao_local (g : GerenciadorTarefas) (t : Tarefa) (f : FilaTarefas) :
  filas_prioridades g !! prioridade t = Some f →
  ∃ g',
    adicionar_tarefa t g = (Retorno true, g', [confirmacao t]) ∧
    filas_prioridades g' !! prioridade t = Some (MkFila (tarefas f ++ [t])) ∧
    (∀ k, k ≠ prioridade t → filas_prioridades g' !! k = filas_prioridades g !! k) ∧
    dom (filas_prioridades g') = dom (filas_prioridades g).
Proof.
  intros Hp. exists (com_fila g (prioridade t) (tarefas f ++ [t])).
  split_and!.
  - by apply adicionar_tarefa_valida.
  - unfold com_fila; simpl. by rewrite lookup_insert_eq.
  - intros k Hk. unfold com_fila; simpl. by rewrite lookup_insert_ne.
  - by apply dom_com_fila.
Qed.

Lemma C10_submissao_local_exemplo :
  ∃ g',
    adicionar_tarefa tarefa_alta_2 gerenciador_exemplo
    = (Retorno true, g', ["Tarefa 'sql' adicionada com prioridade 1"]) ∧
    filas_prioridades g' !! 1 = Some (MkFila ([tarefa_alta] ++ [tarefa_alta_2])) ∧
    (∀ k, k ≠ 1 →
          filas_prioridades g' !! k = filas_prioridades gerenciador_exemplo !! k) ∧
    dom (filas_prioridades g') = dom (filas_prioridades gerenciador_exemplo).
Proof.
  apply (C10_submissao_local gerenciador_exemplo tarefa_alta_2 (MkFila [tarefa_alta])).
  reflexivity.
Defined.

(** * Further properties of the code *)

(** ** The queue on its own *)

Lemma adicionar_todas_run (ts : list Tarefa) (f : FilaTarefas) :
  adicionar_todas ts f = (Retorno tt, MkFila (tarefas f ++ ts), []).
Proof.
  revert f. induction ts as [|t ts IH]; intros [l]; simpl.
  - by rewrite app_nil_r.
  - rewrite (bind_retorno _ _ _ _ _ _ (adicionar_run t (MkFila l))).
    rewrite IH. simpl. by rewrite <-app_assoc.
Qed.

Lemma remover_n_run (n : nat) (f : FilaTarefas) :
  remover_n n f
  = (Retorno ((Some <$> take n (tarefas f))
              ++ replicate (n - length (tarefas f)) None),
     MkFila (drop n (tarefas f)), []).
Proof.
  revert f. induction n as [|n IH]; intros [l]; simpl; [done|].
  destruct l as [|t l].
  - rewrite (bind_retorno _ _ _ _ _ _ (remover_run (MkFila []))).
    rewrite (bind_retorno _ _ _ _ _ _ (IH (MkFila []))). simpl.
    by rewrite take_nil, drop_nil, Nat.sub_0_r.
  - rewrite (bind_retorno _ _ _ _ _ _ (remover_run (MkFila (t :: l)))).
    by rewrite (bind_retorno _ _ _ _ _ _ (IH (MkFila l))).
Qed.

(** X1. [frente] announces exactly what the next [remover] returns: on
    every queue, calling [frente] and then [remover] gives twice the head
    of the queue and leaves its tail; on an empty queue both give [None],
    the queue stays empty, and [pop(0)] is never reached. *)
Theorem X1_frente_anuncia_remover (f : FilaTarefas) :
  (let* a := Fila.frente in
   let* b := Fila.remover in
   ret (a, b)) f
  = (Retorno (head (tarefas f), head (tarefas f)), MkFila (tail (tarefas f)), []).
Proof.
  rewrite (bind_retorno _ _ _ _ _ _ (frente_run f)).
  destruct f as [[|t l]].
  - by rewrite (bind_retorno _ _ _ _ _ _ (remover_run (MkFila []))).
  - by rewrite (bind_retorno _ _ _ _ _ _ (remover_run (MkFila (t :: l)))).
Qed.

(** X2. The queue is first-in first-out, and exhaustion is not an error:
    after the tasks [ts] are added in order to any queue, [n] calls of
    [remover] return the first [n] tasks of the old contents followed by
    [ts], in that order, then [None] for every call beyond the last
    task; what is left is the rest of that sequence. *)
Theorem X2_fila_fifo (f : FilaTarefas) (ts : list Tarefa) (n : nat) :
  (let* _ := adicionar_todas ts in remover_n n) f
  = (Retorno ((Some <$> take n (tarefas f ++ ts))
              ++ replicate (n - length (tarefas f ++ ts)) None),
     MkFila (drop n (tarefas f ++ ts)), []).
Proof.
  rewrite (bind_retorno _ _ _ _ _ _ (adicionar_todas_run ts f)).
  by rewrite remover_n_run.
Qed.

(** X3. The three observers of a queue are read-only and agree with each
    other: [esta_vazia] answers [True] exactly when [tamanho] answers 0,
    and exactly when [frente] answers [None]; none of them changes the
    queue or raises. *)
Theorem X3_observadores_da_fila (f : FilaTarefas) :
  ∃ v n h,
    Fila.esta_vazia f = (Retorno v, f, []) ∧
    Fila.tamanho f = (Retorno n, f, []) ∧
    Fila.frente f = (Retorno h, f, []) ∧
    (v = true ↔ n = 0%nat) ∧
    (v = true ↔ h = None).
Proof.
  eexists _, _, _. split; [apply esta_vazia_run|].
  split; [apply tamanho_run|]. split; [apply frente_run|].
  destruct f as [[|t l]]; simpl; split; split; try done.
Qed.

(** ** The order of service *)

Lemma fmap_pendentes_em_com_fila (g : GerenciadorTarefas) (k : Z)
    (ts : list Tarefa) (ks : list Z) :
  k ∉ ks →
  pendentes_em (com_fila g k ts) <$> ks = pendentes_em g <$> ks.
Proof.
  induction ks as [|j ks IH]; intros Hk; [done|].
  rewrite !fmap_cons, IH by (intros ?; apply Hk; by right).
  rewrite pendentes_em_com_fila, decide_False; [done|].
  intros ->. apply Hk. left.
Qed.

(** The queue of a class is one segment of the order of service, and
    replacing the queue replaces that segment; nothing precedes the
    segment of the lowest non-empty class. *)
Lemma em_ordem_segmento (g : GerenciadorTarefas) (k : Z) (f : FilaTarefas) :
  filas_prioridades g !! k = Some f →
  ∃ antes depois,
    em_ordem g = antes ++ tarefas f ++ depois ∧
    (∀ ts, em_ordem (com_fila g k ts) = antes ++ ts ++ depois) ∧
    (vazio_abaixo g k → antes = []).
Proof.
  intros Hk.
  assert (k ∈ chaves_ordenadas g) as (ks1 & ks2 & E)%list_elem_of_split
    by (apply elem_of_chaves_ordenadas; eauto).
  pose proof (chaves_ordenadas_NoDup g) as Hn. rewrite E in Hn.
  apply NoDup_app in Hn as (_ & Hk1 & [Hk2 _]%NoDup_cons).
  exists (concat (pendentes_em g <$> ks1)), (concat (pendentes_em g <$> ks2)).
  split_and!.
  - unfold em_ordem. rewrite E, fmap_app, fmap_cons, concat_app, concat_cons.
    by rewrite (pendentes_em_Some _ _ _ Hk).
  - intros ts. unfold em_ordem.
    rewrite chaves_ordenadas_com_fila, E by eauto.
    rewrite fmap_app, fmap_cons, concat_app, concat_cons.
    rewrite !fmap_pendentes_em_com_fila; [|done|].
    + by rewrite pendentes_em_com_fila, decide_True.
    + intros Hin. apply (Hk1 k Hin). left.
  - intros Hv. pose proof (vazias_em_abaixo g ks1 k ks2 E Hv) as Hvz.
    clear E Hk1. induction ks1 as [|j ks1 IH]; [done|].
    rewrite fmap_cons, concat_cons, IH.
    + destruct (Hvz j) as (f' & Hf' & He); [left|].
      by rewrite (pendentes_em_Some _ _ _ Hf'), He.
    + intros i Hi. apply Hvz. by right.
Qed.

Lemma em_ordem_length (g : GerenciadorTarefas) : length (em_ordem g) = pendentes g.
Proof.
  rewrite pendentes_por_chaves. unfold em_ordem.
  induction (chaves_ordenadas g) as [|k ks IH]; [done|].
  rewrite fmap_cons, concat_cons, length_app, IH. done.
Qed.

(** X4. Draining a manager yields its tasks class by class in ascending
    order of the class numbers, each class first-in first-out: from every
    state, as many [proxima_tarefa] calls as there are pending tasks
    return exactly the queues' contents concatenated in ascending key
    order, print nothing, and leave every queue empty with the same set
    of classes. *)
Theorem X4_ordem_de_servico (g : GerenciadorTarefas) :
  ∃ g',
    executar (replicate (pendentes g) Proxima) g
    = (Retorno ((Retirada ∘ Some) <$> em_ordem g), g', []) ∧
    tudo_vazio g' ∧
    dom (filas_prioridades g') = dom (filas_prioridades g).
Proof.
  remember (pendentes g) as n eqn:Hn. revert g Hn.
  induction n as [|n IH]; intros g Hn.
  - exists g. pose proof (em_ordem_length g) as Hl. rewrite <-Hn in Hl.
    apply length_zero_iff_nil in Hl. rewrite Hl.
    split_and!; [done| |done]. by apply pendentes_zero.
  - destruct (estado_casos g) as [Hv|(k & t & resto & Hk & Hv)].
    { apply pendentes_zero in Hv. lia. }
    pose proof (pendentes_com_fila g k _ resto Hk) as Hc. simpl in Hc.
    destruct (em_ordem_segmento g k _ Hk) as (antes & depois & Eg & Eg1 & Ha).
    rewrite (Ha Hv) in *. simpl in Eg. specialize (Eg1 resto). simpl in Eg1.
    destruct (IH (com_fila g k resto)) as (g' & Hrun & Hvz & Hdom); [lia|].
    exists g'. split_and!; [|done|].
    + simpl.
      rewrite (bind_retorno _ _ _ _ _ _ (proxima_tarefa_menor _ _ _ _ Hk Hv)).
      rewrite (bind_retorno _ _ _ _ _ _ Hrun).
      by rewrite Eg, Eg1.
    + rewrite Hdom. apply dom_com_fila. eauto.
Qed.

(** X5. No task is lost, duplicated or invented: after any run of
    submissions and [proxima_tarefa] calls from any state, the tasks
    returned together with the tasks still pending are, up to order,
    the tasks pending at the start together with the accepted
    submissions. *)
Theorem X5_nenhuma_tarefa_perdida (ops : list operacao) (g : GerenciadorTarefas) :
  ∃ evs g' saida,
    executar ops g = (Retorno evs, g', saida) ∧
    retiradas evs ++ em_ordem g' ≡ₚ em_ordem g ++ submetidas evs.
Proof.
  revert g. induction ops as [|[t|] ops IH]; intros g; simpl.
  - exists [], g, []. simpl. by rewrite app_nil_r.
  - destruct (filas_prioridades g !! prioridade t) as [f|] eqn:Hp.
    + destruct (IH (com_fila g (prioridade t) (tarefas f ++ [t])))
        as (evs & g' & o & Hrun & Hperm).
      rewrite (bind_retorno _ _ _ _ _ _ (adicionar_tarefa_valida _ _ _ Hp)).
      rewrite (bind_retorno _ _ _ _ _ _ Hrun). simpl.
      eexists _, _, _. split; [done|]. simpl. rewrite Hperm.
      destruct (em_ordem_segmento g _ _ Hp) as (antes & depois & -> & -> & _).
      solve_Permutation.
    + destruct (IH g) as (evs & g' & o & Hrun & Hperm).
      rewrite (bind_retorno _ _ _ _ _ _ (adicionar_tarefa_invalida _ _ Hp)).
      rewrite (bind_retorno _ _ _ _ _ _ Hrun). simpl.
      by eexists _, _, _.
  - destruct (estado_casos g) as [Hv|(k & t & resto & Hk & Hv)].
    + destruct (IH g) as (evs & g' & o & Hrun & Hperm).
      rewrite (bind_retorno _ _ _ _ _ _ (proxima_tarefa_vazio _ Hv)).
      rewrite (bind_retorno _ _ _ _ _ _ Hrun). simpl.
      by eexists _, _, _.
    + destruct (IH (com_fila g k resto)) as (evs & g' & o & Hrun & Hperm).
      rewrite (bind_retorno _ _ _ _ _ _ (proxima_tarefa_menor _ _ _ _ Hk Hv)).
      rewrite (bind_retorno _ _ _ _ _ _ Hrun). simpl.
      eexists _, _, _. split; [done|]. simpl. rewrite Hperm.
      destruct (em_ordem_segmento g _ _ Hk) as (antes & depois & -> & -> & _).
      simpl. solve_Permutation.
Qed.

(** ** Managers built by the constructor *)

(** Case analysis on the rest of a run, keeping the case in which it
    returns. *)
Ltac caso_do_resto evs g Hrun :=
  cbv beta; unfold bind at 1;
  lazymatch goal with
  | |- context [executar ?ops ?s] =>
      let e := fresh "e" in
      let o := fresh "o" in
      destruct (executar ops s) as [[[evs|e] g] o] eqn:Hrun; simpl;
      [|discriminate]
  end.

(** A submission is accepted exactly when its priority is a key of the
    manager the run started from. *)
Lemma executar_submissoes (ops : list operacao) (g : GerenciadorTarefas)
    evs g' saida :
  executar ops g = (Retorno evs, g', saida) →
  ∀ t ok, (t, ok) ∈ submissoes evs →
          ok = bool_decide (prioridade t ∈ dom (filas_prioridades g)).
Proof.
  revert g evs g' saida.
  induction ops as [|[t|] ops IH]; intros g evs g' saida; simpl.
  - intros [= <- <- <-] t ok Hin. by apply elem_of_nil in Hin.
  - destruct (filas_prioridades g !! prioridade t) as [f|] eqn:Hp.
    + rewrite (bind_retorno _ _ _ _ _ _ (adicionar_tarefa_valida _ _ _ Hp)).
      caso_do_resto evs' g1 Hrun. intros [= <- <- <-] t' ok. simpl.
      intros [[= -> ->]|Hin]%elem_of_cons.
      * symmetry. apply bool_decide_eq_true_2, elem_of_dom. eauto.
      * rewrite (IH _ _ _ _ Hrun _ _ Hin), dom_com_fila; eauto.
    + rewrite (bind_retorno _ _ _ _ _ _ (adicionar_tarefa_invalida _ _ Hp)).
      caso_do_resto evs' g1 Hrun. intros [= <- <- <-] t' ok. simpl.
      intros [[= -> ->]|Hin]%elem_of_cons.
      * symmetry. by apply bool_decide_eq_false_2, not_elem_of_dom.
      * by apply (IH _ _ _ _ Hrun).
  - destruct (estado_casos g) as [Hv|(k & t & resto & Hk & Hv)].
    + rewrite (bind_retorno _ _ _ _ _ _ (proxima_tarefa_vazio _ Hv)).
      caso_do_resto evs' g1 Hrun. intros [= <- <- <-] t' ok. simpl.
      by apply (IH _ _ _ _ Hrun).
    + rewrite (bind_retorno _ _ _ _ _ _ (proxima_tarefa_menor _ _ _ _ Hk Hv)).
      caso_do_resto evs' g1 Hrun. intros [= <- <- <-] t' ok. simpl.
      intros Hin. rewrite (IH _ _ _ _ Hrun _ _ Hin), dom_com_fila; eauto.
Qed.

Lemma dom_novo : dom (filas_prioridades novo) = {[1; 2; 3]}.
Proof.
  unfold novo; simpl. rewrite !dom_insert_L, dom_empty_L.
  apply set_eq. intros k. rewrite !elem_of_union, !elem_of_singleton.
  rewrite elem_of_empty. tauto.
Qed.

(** X6. A manager built by [__init__] and used through submissions and
    [proxima_tarefa] calls always has exactly the classes 1, 2 and 3,
    keeps every stored task in the queue of its own priority, and accepts
    a submission exactly when the task's priority is 1, 2 or 3. *)
Theorem X6_classes_do_construtor (ops : list operacao) :
  ∃ evs g' saida,
    executar ops novo = (Retorno evs, g', saida) ∧
    dom (filas_prioridades g') = {[1; 2; 3]} ∧
    bem_formado g' ∧
    ∀ t ok, (t, ok) ∈ submissoes evs → (ok = true ↔ 1 ≤ prioridade t ≤ 3).
Proof.
  destruct (executar_conserva ops novo) as (evs & g' & saida & Hrun & Hdom & _).
  exists evs, g', saida. split_and!; [done| | |].
  - by rewrite Hdom, dom_novo.
  - by destruct (executar_fifo _ _ _ _ _ bem_formado_novo Hrun).
  - intros t ok Hin.
    rewrite (executar_submissoes _ _ _ _ _ Hrun _ _ Hin), dom_novo.
    rewrite bool_decide_eq_true, !elem_of_union, !elem_of_singleton. lia.
Qed.

(** ** How the operations compose *)

Lemma com_fila_vazia (g : GerenciadorTarefas) (k : Z) :
  filas_prioridades g !! k = Some (MkFila []) → com_fila g k [] = g.
Proof. intros H. apply (com_fila_mesma g k (MkFila []) H). Qed.

Lemma vazio_abaixo_com_fila (g : GerenciadorTarefas) (k j : Z) (ts : list Tarefa) :
  vazio_abaixo g j → j ≤ k → vazio_abaixo (com_fila g k ts) j.
Proof.
  intros Hv Hjk i f. unfold com_fila; simpl. intros Hi Hlt.
  rewrite lookup_insert_ne in Hi by lia. by eapply Hv.
Qed.

(** X7. Submitting into an empty class below which every class is empty
    puts the task at the front of the manager: the submission succeeds,
    [visualizar_proxima_tarefa] and then [proxima_tarefa] both return that
    very task, and the manager is back in the state it had before the
    submission.  In particular this holds on a manager with no pending
    task at all. *)
Theorem X7_submeter_e_retirar (g : GerenciadorTarefas) (t : Tarefa) :
  filas_prioridades g !! prioridade t = Some (MkFila []) →
  vazio_abaixo g (prioridade t) →
  (let* ok := adicionar_tarefa t in
   let* v := visualizar_proxima_tarefa in
   let* r := proxima_tarefa in
   ret (ok, v, r)) g
  = (Retorno (true, Some t, Some t), g, [confirmacao t]).
Proof.
  intros Hp Hv.
  rewrite (bind_retorno _ _ _ _ _ _ (adicionar_tarefa_valida _ _ _ Hp)). simpl.
  set (g1 := com_fila g (prioridade t) [t]).
  assert (filas_prioridades g1 !! prioridade t = Some (MkFila [t])) as Hp1
    by (unfold g1, com_fila; simpl; by rewrite lookup_insert_eq).
  assert (vazio_abaixo g1 (prioridade t)) as Hv1
    by by apply vazio_abaixo_com_fila.
  rewrite (bind_retorno _ _ _ _ _ _ (visualizar_menor _ _ _ _ Hp1 Hv1)).
  rewrite (bind_retorno _ _ _ _ _ _ (proxima_tarefa_menor _ _ _ _ Hp1 Hv1)).
  simpl. do 2 f_equal.
  unfold g1, com_fila; simpl. rewrite insert_insert_eq.
  by apply com_fila_vazia.
Qed.

Lemma X7_submeter_e_retirar_exemplo :
  (let* ok := adicionar_tarefa tarefa_alta in
   let* v := visualizar_proxima_tarefa in
   let* r := proxima_tarefa in
   ret (ok, v, r)) novo
  = (Retorno (true, Some tarefa_alta, Some tarefa_alta), novo,
     [confirmacao tarefa_alta]).
Proof.
  apply (X7_submeter_e_retirar novo tarefa_alta).
  - reflexivity.
  - intros j f Hj Hlt. unfold novo in Hj. simpl in Hj.
    chave_concreta Hj; done.
Defined.

(** X8. A new task never overtakes a pending one of the same or a more
    urgent class, and always overtakes the less urgent ones: when the next
    task of a manager is [h], at the head of class [k], then after a
    successful submission of [t] the next task is [t] if the priority of
    [t] is below [k], and is still [h] otherwise. *)
Theorem X8_submeter_e_visualizar (g : GerenciadorTarefas) (t h : Tarefa)
    (k : Z) (resto : list Tarefa) (f : FilaTarefas) :
  filas_prioridades g !! k = Some (MkFila (h :: resto)) →
  vazio_abaixo g k →
  filas_prioridades g !! prioridade t = Some f →
  ∃ g',
    (let* ok := adicionar_tarefa t in
     let* v := visualizar_proxima_tarefa in
     ret (ok, v)) g
    = (Retorno (true, Some (if bool_decide (prioridade t < k) then t else h)),
       g', [confirmacao t]).
Proof.
  intros Hk Hv Hp.
  rewrite (bind_retorno _ _ _ _ _ _ (adicionar_tarefa_valida _ _ _ Hp)). simpl.
  set (g1 := com_fila g (prioridade t) (tarefas f ++ [t])).
  exists g1. case_bool_decide as Hlt.
  - assert (tarefas f = []) as Hf by by eapply Hv.
    assert (filas_prioridades g1 !! prioridade t = Some (MkFila [t])) as Hp1.
    { unfold g1, com_fila; simpl. by rewrite lookup_insert_eq, Hf. }
    assert (vazio_abaixo g1 (prioridade t)) as Hv1.
    { apply vazio_abaixo_com_fila; [|lia].
      intros j f' Hj Hjp. eapply Hv; [done|lia]. }
    by rewrite (bind_retorno _ _ _ _ _ _ (visualizar_menor _ _ _ _ Hp1 Hv1)).
  - destruct (decide (prioridade t = k)) as [Heq|Hne].
    + assert (f = MkFila (h :: resto)) as -> by congruence.
      assert (filas_prioridades g1 !! k = Some (MkFila (h :: resto ++ [t]))) as Hk1.
      { unfold g1, com_fila; simpl. by rewrite Heq, lookup_insert_eq. }
      assert (vazio_abaixo g1 k) as Hv1
        by (apply vazio_abaixo_com_fila; [done|lia]).
      by rewrite (bind_retorno _ _ _ _ _ _ (visualizar_menor _ _ _ _ Hk1 Hv1)).
    + assert (filas_prioridades g1 !! k = Some (MkFila (h :: resto))) as Hk1.
      { unfold g1, com_fila; simpl. by rewrite lookup_insert_ne. }
      assert (vazio_abaixo g1 k) as Hv1
        by (apply vazio_abaixo_com_fila; [done|lia]).
      by rewrite (bind_retorno _ _ _ _ _ _ (visualizar_menor _ _ _ _ Hk1 Hv1)).
Qed.

Lemma X8_submeter_e_visualizar_exemplo :
  ∃ g',
    (let* ok := adicionar_tarefa tarefa_alta_2 in
     let* v := visualizar_proxima_tarefa in
     ret (ok, v)) gerenciador_exemplo
    = (Retorno (true, Some (if bool_decide (prioridade tarefa_alta_2 < 1)
                            then tarefa_alta_2 else tarefa_alta)),
       g', [confirmacao tarefa_alta_2]).
Proof.
  apply (X8_submeter_e_visualizar gerenciador_exemplo tarefa_alta_2 tarefa_alta
           1 [] (MkFila [tarefa_alta])).
  - reflexivity.
  - exact gerenciador_exemplo_vazio_abaixo.
  - reflexivity.
Defined.

(** ** Statistics along the operations *)

(** X9. The statistics follow a successful submission: taken just before
    and just after it, the total grows by exactly one, the count of the
    task's class grows by exactly one, and the count of every other class
    is the same. *)
Theorem X9_estatisticas_apos_submeter (g : GerenciadorTarefas) (t : Tarefa)
    (f : FilaTarefas) :
  filas_prioridades g !! prioridade t = Some f →
  ∃ s0 s1 g',
    (let* s0 := estatisticas in
     let* ok := adicionar_tarefa t in
     let* s1 := estatisticas in
     ret (s0, ok, s1)) g
    = (Retorno (s0, true, s1), g', [confirmacao t]) ∧
    total s1 = S (total s0) ∧
    por_prioridade s0 !! prioridade t = Some (length (tarefas f)) ∧
    por_prioridade s1 !! prioridade t = Some (S (length (tarefas f))) ∧
    ∀ k, k ≠ prioridade t → por_prioridade s1 !! k = por_prioridade s0 !! k.
Proof.
  intros Hp.
  rewrite (bind_retorno _ _ _ _ _ _ (estatisticas_run g)).
  rewrite (bind_retorno _ _ _ _ _ _ (adicionar_tarefa_valida _ _ _ Hp)).
  rewrite (bind_retorno _ _ _ _ _ _ (estatisticas_run _)). simpl.
  eexists _, _, _. split; [done|]. simpl.
  pose proof (pendentes_com_fila g _ f (tarefas f ++ [t]) Hp) as Hc.
  rewrite length_app in Hc. simpl in Hc. split_and!.
  - lia.
  - by rewrite lookup_fmap, Hp.
  - rewrite lookup_fmap, lookup_insert_eq. simpl.
    rewrite length_app. simpl. f_equal. lia.
  - intros k Hk. by rewrite !lookup_fmap, lookup_insert_ne.
Qed.

Lemma X9_estatisticas_apos_submeter_exemplo :
  ∃ s0 s1 g',
    (let* s0 := estatisticas in
     let* ok := adicionar_tarefa tarefa_alta_2 in
     let* s1 := estatisticas in
     ret (s0, ok, s1)) gerenciador_exemplo
    = (Retorno (s0, true, s1), g', [confirmacao tarefa_alta_2]) ∧
    total s1 = S (total s0) ∧
    por_prioridade s0 !! 1 = Some 1%nat ∧
    por_prioridade s1 !! 1 = Some 2%nat ∧
    ∀ k, k ≠ 1 → por_prioridade s1 !! k = por_prioridade s0 !! k.
Proof.
  apply (X9_estatisticas_apos_submeter gerenciador_exemplo tarefa_alta_2
           (MkFila [tarefa_alta])).
  reflexivity.
Defined.



(** ** The listing *)

Lemma print_run {S} (linha : string) (s : S) :
  print linha s = (Retorno tt, s, [linha]).
Proof. reflexivity. Qed.

Lemma na_fila_ler_tarefas (g : GerenciadorTarefas) (k : Z) (f : FilaTarefas) :
  filas_prioridades g !! k = Some f →
  na_fila k Fila.ler_tarefas g = (Retorno (tarefas f), g, []).
Proof.
  intros H. rewrite (na_fila_run _ _ _ _ H).
  unfold Fila.ler_tarefas, bind, ler, ret. simpl.
  by rewrite (com_fila_mesma _ _ _ H).
Qed.

Lemma listar_fila_run (i : nat) (ts : list Tarefa) (g : GerenciadorTarefas) :
  listar_fila i ts g = (Retorno tt, g, linhas_tarefas i ts).
Proof.
  revert i. induction ts as [|t ts IH]; intros i; simpl; [done|].
  rewrite (bind_retorno _ _ _ _ _ _ (print_run _ g)). by rewrite IH.
Qed.

Lemma listar_laco_run (ks : list Z) (n : nat) (g : GerenciadorTarefas) :
  (∀ k, k ∈ ks → is_Some (filas_prioridades g !! k)) →
  listar_laco ks n g
  = (Retorno (n + sum_list_with (λ k, length (pendentes_em g k)) ks)%nat, g,
     concat (bloco_listagem g <$> ks)).
Proof.
  revert n. induction ks as [|k ks IH]; intros n Hks.
  - simpl. unfold ret. by rewrite Nat.add_0_r.
  - assert (is_Some (filas_prioridades g !! k)) as [f Hf] by (apply Hks; left).
    assert (∀ j, j ∈ ks → is_Some (filas_prioridades g !! j)) as Hks'
      by (intros j Hj; apply Hks; by right).
    cbn [listar_laco].
    rewrite (bind_retorno _ _ _ _ _ _ (na_fila_tamanho _ _ _ Hf)).
    rewrite (bind_retorno _ _ _ _ _ _ (print_run _ g)).
    rewrite (bind_retorno _ _ _ _ _ _ (na_fila_esta_vazia _ _ _ Hf)).
    rewrite fmap_cons, concat_cons. unfold bloco_listagem at 1.
    rewrite (pendentes_em_Some _ _ _ Hf).
    destruct (tarefas f) as [|t ts] eqn:Ht.
    + rewrite bool_decide_eq_true_2 by done.
      rewrite (bind_retorno _ _ _ _ _ _ (print_run _ g)).
      rewrite (IH _ Hks'). simpl.
      rewrite (pendentes_em_Some _ _ _ Hf), Ht. simpl.
      do 2 f_equal. f_equal. lia.
    + rewrite bool_decide_eq_false_2 by done.
      rewrite (bind_retorno _ _ _ _ _ _ (na_fila_ler_tarefas _ _ _ Hf)).
      rewrite (bind_retorno _ _ _ _ _ _ (listar_fila_run _ _ g)).
      rewrite (IH _ Hks'), Ht. simpl.
      rewrite (pendentes_em_Some _ _ _ Hf), Ht. simpl.
      do 2 f_equal. f_equal. lia.
Qed.

Lemma listar_todas_tarefas_run (g : GerenciadorTarefas) :
  listar_todas_tarefas g
  = (Retorno tt, g,
     cabecalho_listagem
     :: concat (bloco_listagem g <$> chaves_ordenadas g)
     ++ [linha_total (pendentes g); regua_listagem]).
Proof.
  unfold listar_todas_tarefas.
  rewrite (bind_retorno _ _ _ _ _ _ (print_run _ g)).
  unfold bind at 1, ler.
  rewrite (bind_retorno _ _ _ _ _ _ (listar_laco_run _ 0 g
             (λ k, proj1 (elem_of_chaves_ordenadas g k)))).
  rewrite (bind_retorno _ _ _ _ _ _ (print_run _ g)).
  rewrite print_run. simpl. by rewrite <-pendentes_por_chaves.
Qed.

(** X11. The listing is read-only: in every manager state
    [listar_todas_tarefas] returns without raising and leaves the manager
    exactly as it was, so whatever is called after it behaves as if the
    listing had not been made, apart from the lines it printed. *)
Theorem X11_listagem_somente_leitura (g : GerenciadorTarefas) :
  ∃ saida,
    listar_todas_tarefas g = (Retorno tt, g, saida) ∧
    ∀ A (depois : M GerenciadorTarefas A),
      (let* _ := listar_todas_tarefas in depois) g
      = (let '(r, g', o) := depois g in (r, g', saida ++ o)).
Proof.
  eexists. split; [apply listar_todas_tarefas_run|].
  intros A depois.
  by rewrite (bind_retorno _ _ _ _ _ _ (listar_todas_tarefas_run g)).
Qed.

(** X12. What the listing prints: the title line; then, for each class
    in ascending order of its number, a header carrying the class label
    and the size of its queue, followed by the line "Nenhuma tarefa nesta
    categoria" when the queue is empty and otherwise by one numbered line
    per task from the head of the queue; then the grand total, which is
    the total [estatisticas] reports in the same state; then the closing
    rule. *)
Theorem X12_conteudo_da_listagem (g : GerenciadorTarefas) :
  ∃ st,
    estatisticas g = (Retorno st, g, []) ∧
    listar_todas_tarefas g
    = (Retorno tt, g,
       cabecalho_listagem
       :: concat (bloco_listagem g <$> chaves_ordenadas g)
       ++ [linha_total (total st); regua_listagem]).
Proof.
  eexists. split; [apply estatisticas_run|]. apply listar_todas_tarefas_run.
Qed.

Lemma linhas_tarefas_lookup (j i : nat) (ts : list Tarefa) (t : Tarefa) :
  ts !! i = Some t → linhas_tarefas j ts !! i = Some (linha_tarefa (j + i) t).
Proof.
  revert j i. induction ts as [|t' ts IH]; intros j [|i] H; simplify_eq/=.
  - by rewrite Nat.add_0_r.
  - rewrite (IH (S j) i H). do 2 f_equal. lia.
Qed.

Lemma elem_of_concat_2 {A} (x : A) (l : list A) (ls : list (list A)) :
  x ∈ l → l ∈ ls → x ∈ concat ls.
Proof.
  intros Hx. induction ls as [|l' ls IH]; intros Hl.
  - by apply elem_of_nil in Hl.
  - rewrite concat_cons. apply elem_of_app.
    apply elem_of_cons in Hl as [<-|Hl]; [by left|right; by apply IH].
Qed.

(** X13. Every pending task is listed with its position in its queue:
    the task at index [i] of the queue of class [k] appears in the
    listing as the line numbered [i + 1], with its name and the preview of
    its description. *)
Theorem X13_tarefa_listada (g : GerenciadorTarefas) (k : Z) (i : nat) (t : Tarefa) :
  pendentes_em g k !! i = Some t →
  ∃ saida,
    listar_todas_tarefas g = (Retorno tt, g, saida) ∧
    pretty (i + 1)%nat +:+ ". " +:+ nome t +:+ " - "
      +:+ previa_descricao (descricao t) ∈ saida.
Proof.
  intros Hi. eexists. split; [apply listar_todas_tarefas_run|].
  assert (k ∈ chaves_ordenadas g) as Hk.
  { apply elem_of_chaves_ordenadas. unfold pendentes_em in Hi.
    destruct (filas_prioridades g !! k); [eauto|]. by rewrite lookup_nil in Hi. }
  right. apply elem_of_app. left.
  apply (elem_of_concat_2 _ (bloco_listagem g k)).
  - unfold bloco_listagem. right.
    destruct (pendentes_em g k) as [|t' ts] eqn:E; [by rewrite lookup_nil in Hi|].
    apply list_elem_of_lookup. exists i.
    apply (linhas_tarefas_lookup 0 i (t' :: ts) t Hi).
  - by apply list_elem_of_fmap_2.
Qed.

Lemma X13_tarefa_listada_exemplo :
  ∃ saida,
    listar_todas_tarefas gerenciador_demo = (Retorno tt, gerenciador_demo, saida) ∧
    "1. Corrigir bug crítico - O sistema de login está falhando para alguns usuár..."
      ∈ saida.
Proof.
  apply (X13_tarefa_listada gerenciador_demo 1 0 tarefa_demo).
  reflexivity.
Defined.

(** ** The preview of a description *)

Lemma append_cons (c : Ascii.ascii) (a b : string) :
  String c a +:+ b = String c (a +:+ b).
Proof. reflexivity. Qed.

Lemma append_vazio_r (a : string) : a +:+ "" = a.
Proof.
  induction a as [|c a IH]; [done|]. by rewrite append_cons, IH.
Qed.

Lemma len_str_append (a b : string) :
  len_str (a +:+ b) = (len_str a + len_str b)%nat.
Proof.
  induction a as [|c a IH]; [done|].
  rewrite append_cons. cbn [len_str].
  destruct (byte_de_continuacao c); rewrite IH; done.
Qed.

Lemma prefixo_str_curto (n : nat) (d : string) :
  (len_str d ≤ n)%nat → prefixo_str n d = d.
Proof.
  revert n. induction d as [|c d IH]; intros n H; [done|].
  cbn [len_str prefixo_str] in *.
  destruct (byte_de_continuacao c).
  - by rewrite IH.
  - destruct n as [|n]; [lia|]. rewrite IH; [done|lia].
Qed.

Lemma len_prefixo_str (n : nat) (d : string) :
  len_str (prefixo_str n d) = (n `min` len_str d)%nat.
Proof.
  revert n. induction d as [|c d IH]; intros n; [by destruct n|].
  cbn [len_str prefixo_str].
  destruct (byte_de_continuacao c) eqn:Hc.
  - cbn [len_str]. by rewrite Hc, IH.
  - destruct n as [|n]; [done|]. cbn [len_str]. rewrite Hc, IH. lia.
Qed.

Lemma prefixo_str_prefixo (n : nat) (d : string) :
  ∃ resto, d = prefixo_str n d +:+ resto.
Proof.
  revert n. induction d as [|c d IH]; intros n; [by exists ""|].
  cbn [prefixo_str]. destruct (byte_de_continuacao c).
  - destruct (IH n) as [resto E]. exists resto.
    by rewrite append_cons, <-E.
  - destruct n as [|n]; [by exists (String c d)|].
    destruct (IH n) as [resto E]. exists resto.
    by rewrite append_cons, <-E.
Qed.

(** The preview on the module's own demonstration data, and on a
    description of exactly 50 code points that takes 70 bytes. *)
Example previa_descricao_demo :
  len_str (descricao tarefa_demo) = 53%nat ∧
  previa_descricao (descricao tarefa_demo)
  = "O sistema de login está falhando para alguns usuár...".
Proof. split; reflexivity. Qed.

Example previa_descricao_50 :
  let d := "ação ação ação ação ação ação ação ação ação ação " in
  len_str d = 50%nat ∧ String.length d = 70%nat ∧ previa_descricao d = d.
Proof. split_and!; reflexivity. Qed.

(** X14. The preview keeps a description of at most 50 characters (code
    points) as it is, 50 included, and otherwise shows its first 50
    characters followed by "..."; the part shown before the dots is
    always a prefix of the description.  Counted in characters the
    preview is therefore never longer than 53, and is exactly 53 long
    for every description longer than 50, so a description of 51 or 52
    characters has a preview longer than itself. *)
Theorem X14_previa_da_descricao (d : string) :
  previa_descricao d
  = (if bool_decide (len_str d ≤ 50)%nat then d
     else prefixo_str 50 d +:+ "...") ∧
  (∃ resto, d = prefixo_str 50 d +:+ resto) ∧
  len_str (previa_descricao d)
  = (if bool_decide (len_str d ≤ 50)%nat then len_str d else 53%nat) ∧
  (len_str (previa_descricao d) ≤ 53)%nat.
Proof.
  unfold previa_descricao.
  split_and!; [| apply prefixo_str_prefixo | |].
  - destruct (decide (len_str d ≤ 50)%nat) as [Hle|Hgt].
    + rewrite (bool_decide_eq_true_2 (len_str d ≤ 50)%nat) by done.
      rewrite (bool_decide_eq_false_2 (50 < len_str d)%nat) by lia.
      by rewrite append_vazio_r, prefixo_str_curto.
    + rewrite (bool_decide_eq_false_2 (len_str d ≤ 50)%nat) by done.
      by rewrite (bool_decide_eq_true_2 (50 < len_str d)%nat) by lia.
  - rewrite len_str_append, len_prefixo_str.
    repeat case_bool_decide;
      try change (len_str "...") with 3%nat; try change (len_str "") with 0%nat; lia.
  - rewrite len_str_append, len_prefixo_str.
    repeat case_bool_decide;
      try change (len_str "...") with 3%nat; try change (len_str "") with 0%nat; lia.
Qed.

(** ** No method raises *)

(** X15. In every manager state, whatever its set of classes, none of
    the six methods of the manager raises: the dict subscripts are only
    made with keys of the dict and [pop(0)] and [[0]] only on non-empty
    lists; and every method leaves the set of classes as it was. *)
Theorem X15_nenhum_metodo_levanta (g : GerenciadorTarefas) (t : Tarefa) :
  (∃ ok g' saida, adicionar_tarefa t g = (Retorno ok, g', saida) ∧
     dom (filas_prioridades g') = dom (filas_prioridades g)) ∧
  (∃ r g' saida, proxima_tarefa g = (Retorno r, g', saida) ∧
     dom (filas_prioridades g') = dom (filas_prioridades g)) ∧
  (∃ r saida, visualizar_proxima_tarefa g = (Retorno r, g, saida)) ∧
  (∃ st, estatisticas g = (Retorno st, g, [])) ∧
  (∃ saida, listar_todas_tarefas g = (Retorno tt, g, saida)).
Proof.
  split_and!.
  - destruct (filas_prioridades g !! prioridade t) as [f|] eqn:Hp.
    + eexists _, _, _. split; [by apply adicionar_tarefa_valida|].
      apply dom_com_fila. eauto.
    + eexists _, _, _. split; [by apply adicionar_tarefa_invalida|done].
  - destruct (estado_casos g) as [Hv|(k & h & resto & Hk & Hv)].
    + eexists _, _, _. split; [by apply proxima_tarefa_vazio|done].
    + eexists _, _, _. split; [by apply proxima_tarefa_menor|].
      apply dom_com_fila. eauto.
  - destruct (estado_casos g) as [Hv|(k & h & resto & Hk & Hv)].
    + eexists _, _. by apply visualizar_vazio.
    + eexists _, _. by eapply visualizar_menor.
  - eexists. apply estatisticas_run.
  - eexists. apply listar_todas_tarefas_run.
Qed.

(** ** When two renderings coincide *)

Lemma append_cancela_l (s a b : string) : s +:+ a = s +:+ b → a = b.
Proof.
  induction s as [|c s IH]; [done|].
  change (String c (s +:+ a) = String c (s +:+ b) → a = b).
  intros [= H]. by apply IH.
Qed.

Lemma prioridade_texto_casos (p : Z) :
  (p = 1 ∧ prioridade_texto p = "Alta") ∨
  (p = 2 ∧ prioridade_texto p = "Média") ∨
  (p = 3 ∧ prioridade_texto p = "Baixa") ∨
  (¬ 1 ≤ p ≤ 3 ∧ prioridade_texto p = "Desconhecida").
Proof.
  unfold prioridade_texto. repeat case_decide; subst; try tauto.
  right. right. right. split; [lia|done].
Qed.

(** X16. The rendering shows the class only through its label: two tasks
    with the same name have the same rendering exactly when they have the
    same description and either the same priority or two priorities both
    outside 1, 2, 3 (which all render as "Desconhecida"). *)
Theorem X16_renderizacoes_iguais (t1 t2 : Tarefa) :
  nome t1 = nome t2 →
  (Tarefa_str t1 = Tarefa_str t2 ↔
   descricao t1 = descricao t2 ∧
   (prioridade t1 = prioridade t2 ∨
    (¬ 1 ≤ prioridade t1 ≤ 3 ∧ ¬ 1 ≤ prioridade t2 ≤ 3))).
Proof.
  intros Hn. unfold Tarefa_str. rewrite Hn. split.
  - intros H.
    apply (append_cancela_l "Tarefa: "), append_cancela_l in H.
    apply (append_cancela_l " (Prioridade: ") in H.
    destruct (prioridade_texto_casos (prioridade t1)) as [[? E1]|[[? E1]|[[? E1]|[? E1]]]],
      (prioridade_texto_casos (prioridade t2)) as [[? E2]|[[? E2]|[[? E2]|[? E2]]]];
      rewrite E1, E2 in H; try discriminate H.
    + apply (append_cancela_l "Alta"), (append_cancela_l ")") in H.
      apply append_cancela_l, (append_cancela_l "Descrição: ") in H.
      split; [done|left; congruence].
    + apply (append_cancela_l "Média"), (append_cancela_l ")") in H.
      apply append_cancela_l, (append_cancela_l "Descrição: ") in H.
      split; [done|left; congruence].
    + apply (append_cancela_l "Baixa"), (append_cancela_l ")") in H.
      apply append_cancela_l, (append_cancela_l "Descrição: ") in H.
      split; [done|left; congruence].
    + apply (append_cancela_l "Desconhecida"), (append_cancela_l ")") in H.
      apply append_cancela_l, (append_cancela_l "Descrição: ") in H.
      split; [done|by right].
  - intros [-> [->|[H1 H2]]]; [done|].
    destruct (prioridade_texto_casos (prioridade t1)) as [[? E1]|[[? E1]|[[? E1]|[? E1]]]];
      try lia.
    destruct (prioridade_texto_casos (prioridade t2)) as [[? E2]|[[? E2]|[[? E2]|[? E2]]]];
      try lia.
    by rewrite E1, E2.
Qed.

Lemma X16_renderizacoes_iguais_exemplo :
  Tarefa_str (MkTarefa "A" "d" 4) = Tarefa_str (MkTarefa "A" "d" 99) ↔
  "d" = "d" ∧ (4 = 99 ∨ (¬ 1 ≤ 4 ≤ 3 ∧ ¬ 1 ≤ 99 ≤ 3)).
Proof.
  apply (X16_renderizacoes_iguais (MkTarefa "A" "d" 4) (MkTarefa "A" "d" 99)).
  reflexivity.
Defined.

(** ** The manager as a stable priority queue *)

Lemma chaves_ordenadas_depois (g : GerenciadorTarefas) (ks1 ks2 : list Z) (k j : Z) :
  chaves_ordenadas g = ks1 ++ k :: ks2 → j ∈ ks2 → k < j.
Proof.
  intros E Hj.
  pose proof (chaves_ordenadas_sorted g) as Hs.
  pose proof (chaves_ordenadas_NoDup g) as Hn.
  rewrite E in Hs, Hn.
  apply StronglySorted_app_1_r, StronglySorted_inv in Hs as [_ Hs].
  rewrite Forall_forall in Hs. specialize (Hs j Hj).
  apply NoDup_app in Hn as (_ & _ & [Hk _]%NoDup_cons).
  assert (j ≠ k) by (intros ->; done). lia.
Qed.

Lemma elem_of_concat_fmap {A B} (F : A → list B) (x : B) (l : list A) :
  x ∈ concat (F <$> l) → ∃ a, a ∈ l ∧ x ∈ F a.
Proof.
  induction l as [|a l IH]; [by intros ?%elem_of_nil|].
  rewrite fmap_cons, concat_cons. intros [Hx|Hx]%elem_of_app.
  - exists a. split; [left|done].
  - destruct (IH Hx) as (b & Hb & Hxb). exists b. split; [by right|done].
Qed.

Lemma bem_formado_pendentes_em (g : GerenciadorTarefas) (k : Z) (x : Tarefa) :
  bem_formado g → x ∈ pendentes_em g k → prioridade x = k.
Proof.
  intros Hg Hx. unfold pendentes_em in Hx.
  destruct (filas_prioridades g !! k) as [f|] eqn:Hf; [by eapply Hg|].
  by apply elem_of_nil in Hx.
Qed.

(** In a well-formed state, what precedes the segment of class [k] in the
    order of service has a smaller priority number, what follows it a
    larger one. *)
Lemma em_ordem_segmento_classes (g : GerenciadorTarefas) (k : Z) (f : FilaTarefas) :
  bem_formado g →
  filas_prioridades g !! k = Some f →
  ∃ antes depois,
    em_ordem g = antes ++ tarefas f ++ depois ∧
    (∀ ts, em_ordem (com_fila g k ts) = antes ++ ts ++ depois) ∧
    (∀ x, x ∈ antes → prioridade x < k) ∧
    (∀ x, x ∈ depois → k < prioridade x).
Proof.
  intros Hg Hk.
  assert (k ∈ chaves_ordenadas g) as (ks1 & ks2 & E)%list_elem_of_split
    by (apply elem_of_chaves_ordenadas; eauto).
  pose proof (chaves_ordenadas_NoDup g) as Hn. rewrite E in Hn.
  apply NoDup_app in Hn as (_ & Hk1 & [Hk2 _]%NoDup_cons).
  exists (concat (pendentes_em g <$> ks1)), (concat (pendentes_em g <$> ks2)).
  split_and!.
  - unfold em_ordem. rewrite E, fmap_app, fmap_cons, concat_app, concat_cons.
    by rewrite (pendentes_em_Some _ _ _ Hk).
  - intros ts. unfold em_ordem.
    rewrite chaves_ordenadas_com_fila, E by eauto.
    rewrite fmap_app, fmap_cons, concat_app, concat_cons.
    rewrite !fmap_pendentes_em_com_fila; [|done|].
    + by rewrite pendentes_em_com_fila, decide_True.
    + intros Hin. apply (Hk1 k Hin). left.
  - intros x (j & Hj & Hx)%elem_of_concat_fmap.
    rewrite (bem_formado_pendentes_em g j x Hg Hx).
    by eapply chaves_ordenadas_antes.
  - intros x (j & Hj & Hx)%elem_of_concat_fmap.
    rewrite (bem_formado_pendentes_em g j x Hg Hx).
    by eapply chaves_ordenadas_depois.
Qed.

(** X17. One step of service: in every manager state,
    [visualizar_proxima_tarefa] returns the first task of the order of
    service (or [None] when there is none), [proxima_tarefa] returns the
    same answer and prints the same, and after it the order of service is
    what it was without its first task. *)
Theorem X17_um_passo_de_servico (g : GerenciadorTarefas) :
  ∃ g' saida,
    visualizar_proxima_tarefa g = (Retorno (head (em_ordem g)), g, saida) ∧
    proxima_tarefa g = (Retorno (head (em_ordem g)), g', saida) ∧
    em_ordem g' = tail (em_ordem g).
Proof.
  destruct (estado_casos g) as [Hv|(k & t & resto & Hk & Hv)].
  - assert (em_ordem g = []) as ->.
    { apply length_zero_iff_nil. rewrite em_ordem_length. by apply pendentes_zero. }
    exists g, [sem_pendentes]. split_and!; [|by apply proxima_tarefa_vazio|].
    + by apply visualizar_vazio.
    + simpl. apply length_zero_iff_nil. rewrite em_ordem_length.
      by apply pendentes_zero.
  - destruct (em_ordem_segmento g k _ Hk) as (antes & depois & Eg & Eg1 & Ha).
    rewrite (Ha Hv) in *. simpl in Eg. rewrite Eg.
    exists (com_fila g k resto), []. split_and!.
    + by eapply visualizar_menor.
    + by apply proxima_tarefa_menor.
    + by rewrite Eg1.
Qed.

(** In a well-formed state the order of service is sorted by priority. *)
Lemma em_ordem_ordenado (g : GerenciadorTarefas) :
  bem_formado g →
  StronglySorted (λ a b, prioridade a ≤ prioridade b) (em_ordem g).
Proof.
  intros Hg. unfold em_ordem.
  pose proof (chaves_ordenadas_sorted g) as Hs.
  induction Hs as [|k ks Hs IH Hks]; [constructor|].
  rewrite fmap_cons, concat_cons. apply StronglySorted_app_2; [| |done].
  - intros x y Hx (j & Hj & Hy)%elem_of_concat_fmap.
    rewrite (bem_formado_pendentes_em g k x Hg Hx).
    rewrite (bem_formado_pendentes_em g j y Hg Hy).
    rewrite Forall_forall in Hks. by apply Hks.
  - assert (∀ x, x ∈ pendentes_em g k → prioridade x = k) as Hall
      by (intros x; by apply bem_formado_pendentes_em).
    induction (pendentes_em g k) as [|x l IHl]; constructor.
    + apply IHl. intros y Hy. apply Hall. by right.
    + apply Forall_forall. intros y Hy.
      rewrite (Hall x) by left. rewrite (Hall y) by (by right). done.
Qed.

(** One call of [proxima_tarefa] takes the first task of the order of
    service. *)
Lemma proxima_tarefa_em_ordem (g : GerenciadorTarefas) :
  ∃ g' saida,
    proxima_tarefa g = (Retorno (head (em_ordem g)), g', saida) ∧
    em_ordem g' = tail (em_ordem g).
Proof.
  destruct (estado_casos g) as [Hv|(k & t & resto & Hk & Hv)].
  - assert (em_ordem g = []) as E.
    { apply length_zero_iff_nil. rewrite em_ordem_length. by apply pendentes_zero. }
    exists g, [sem_pendentes]. rewrite E. split; [by apply proxima_tarefa_vazio|done].
  - destruct (em_ordem_segmento g k _ Hk) as (antes & depois & Eg & Eg1 & Ha).
    rewrite (Ha Hv) in *. simpl in Eg. rewrite Eg.
    exists (com_fila g k resto), []. split; [by apply proxima_tarefa_menor|].
    by rewrite Eg1.
Qed.

(** [n] calls of [proxima_tarefa] in a row take the first [n] tasks of
    the order of service. *)
Lemma executar_proximas (n : nat) (g : GerenciadorTarefas) :
  ∃ evs g' saida,
    executar (replicate n Proxima) g = (Retorno evs, g', saida) ∧
    length evs = n ∧
    retiradas evs = take n (em_ordem g) ∧
    em_ordem g' = drop n (em_ordem g).
Proof.
  revert g. induction n as [|n IH]; intros g.
  - exists [], g, []. by rewrite take_0, drop_0.
  - destruct (proxima_tarefa_em_ordem g) as (g1 & o1 & Hp & E1).
    destruct (IH g1) as (evs & g' & o & Hrun & Hlen & Hret & Hdrop).
    simpl. rewrite (bind_retorno _ _ _ _ _ _ Hp).
    rewrite (bind_retorno _ _ _ _ _ _ Hrun). simpl.
    eexists _, _, _. split; [done|]. split; [simpl; by rewrite Hlen|].
    rewrite E1 in Hret, Hdrop.
    destruct (em_ordem g) as [|t l]; simpl in *.
    + by rewrite Hret, Hdrop, take_nil, drop_nil.
    + by rewrite Hret, Hdrop.
Qed.

(** X18. Tasks are served in non-decreasing priority number: in a state
    where every stored task sits in the queue of its priority, any number
    [n] of [proxima_tarefa] calls in a row never raises, returns the first
    [n] tasks of the order of service (all of them when [n] exceeds their
    number), and the priority numbers of the tasks returned, in the order
    of the calls, never decrease. *)
Theorem X18_servico_ordenado (g : GerenciadorTarefas) (n : nat) :
  bem_formado g →
  ∃ evs g' saida,
    executar (replicate n Proxima) g = (Retorno evs, g', saida) ∧
    length evs = n ∧
    retiradas evs = take n (em_ordem g) ∧
    StronglySorted (λ a b, prioridade a ≤ prioridade b) (retiradas evs).
Proof.
  intros Hg.
  destruct (executar_proximas n g) as (evs & g' & o & Hrun & Hlen & Hret & _).
  exists evs, g', o. split_and!; [done|done|done|].
  rewrite Hret. pose proof (em_ordem_ordenado g Hg) as Hs.
  rewrite <-(take_drop n (em_ordem g)) in Hs.
  by apply StronglySorted_app_1_l in Hs.
Qed.

Lemma X18_servico_ordenado_exemplo :
  ∃ evs g' saida,
    executar (replicate 3 Proxima) gerenciador_exemplo = (Retorno evs, g', saida) ∧
    length evs = 3%nat ∧
    retiradas evs = take 3 (em_ordem gerenciador_exemplo) ∧
    StronglySorted (λ a b, prioridade a ≤ prioridade b) (retiradas evs).
Proof.
  apply (X18_servico_ordenado gerenciador_exemplo 3).
  exact gerenciador_exemplo_bem_formado.
Defined.

(** The three calls of the example: the task of class 1, then the task of
    class 3 although it was submitted first, then nothing. *)
Lemma exemplo_servico_ordenado_run :
  executar (replicate 3 Proxima) gerenciador_exemplo
  = (Retorno [Retirada (Some tarefa_alta); Retirada (Some tarefa_baixa);
              Retirada None],
     novo, [sem_pendentes]).
Proof. vm_compute. reflexivity. Qed.

(** X19. Submission is a stable insertion by priority: in a state where
    every stored task sits in the queue of its priority, a successful
    submission places the task in the order of service after every
    pending task of the same or a smaller priority number and before
    every pending task of a larger one, and leaves the relative order of
    the tasks already pending as it was. *)
Theorem X19_insercao_estavel (g : GerenciadorTarefas) (t : Tarefa) (f : FilaTarefas) :
  bem_formado g →
  filas_prioridades g !! prioridade t = Some f →
  ∃ antes depois g',
    adicionar_tarefa t g = (Retorno true, g', [confirmacao t]) ∧
    em_ordem g = antes ++ depois ∧
    em_ordem g' = antes ++ t :: depois ∧
    (∀ x, x ∈ antes → prioridade x ≤ prioridade t) ∧
    (∀ x, x ∈ depois → prioridade t < prioridade x).
Proof.
  intros Hg Hp.
  destruct (em_ordem_segmento_classes g _ _ Hg Hp)
    as (antes & depois & Eg & Eg1 & Ha & Hd).
  exists (antes ++ tarefas f), depois, (com_fila g (prioridade t) (tarefas f ++ [t])).
  split_and!.
  - by apply adicionar_tarefa_valida.
  - by rewrite Eg, <-app_assoc.
  - rewrite Eg1, <-!app_assoc. done.
  - intros x [Hx|Hx]%elem_of_app.
    + specialize (Ha x Hx). lia.
    + rewrite (Hg _ _ _ Hp Hx). lia.
  - done.
Qed.

Lemma X19_insercao_estavel_exemplo :
  ∃ antes depois g',
    adicionar_tarefa tarefa_alta_2 gerenciador_exemplo
    = (Retorno true, g', [confirmacao tarefa_alta_2]) ∧
    em_ordem gerenciador_exemplo = antes ++ depois ∧
    em_ordem g' = antes ++ tarefa_alta_2 :: depois ∧
    (∀ x, x ∈ antes → prioridade x ≤ prioridade tarefa_alta_2) ∧
    (∀ x, x ∈ depois → prioridade tarefa_alta_2 < prioridade x).
Proof.
  apply (X19_insercao_estavel gerenciador_exemplo tarefa_alta_2 (MkFila [tarefa_alta])).
  - exact gerenciador_exemplo_bem_formado.
  - reflexivity.
Defined.
